(** * The scan engine of [useIPScanner.tsx]

    A shallow embedding of the scanner store (the zustand store of the
    hook) and of the hook's operations [startScan], [reStart], [stopScan]
    and [testIPs], followed by the properties of the engine.

    Conventions of the embedding.
    - A JavaScript [number] that only ever holds an integer (counters,
      ports, the floored latencies) is a [Z].  A number that may carry a
      fraction (clock readings of [performance.now()], [maxLatency] and
      the timeouts computed from it) is a rational [Q]; arithmetic on
      them is exact, where the engine computes in IEEE doubles.
    - An [async] function is run to completion as a function of the
      state; what the outside world does while the function is suspended
      at an [await] (the answer of the probe, the clock, a press on the
      stop button) is supplied by an explicit environment.
    - A [try]/[catch] is an explicit sum: a computation either returns or
      throws, in both cases with the store as it stands. *)

From Stdlib Require Import List ZArith QArith Qround Bool String Ascii Lia.
From Stdlib Require Import Sorting.Sorted Sorting.Permutation DecimalString.
Import ListNotations.

Local Open Scope string_scope.
Local Open Scope list_scope.
Local Open Scope Z_scope.

(** ** Data model *)

(** [type ValidIP = { ip: string; latency: number }] *)
Record ValidIP : Type := mkValidIP {
  ip : string;
  latency : Z
}.

(** [const TRY_CHARS = ["", "|", "/", "-", "\\"]] *)
Definition TRY_CHARS : list string := [""; "|"; "/"; "-"; "\"].

Definition MAX_TRIES : nat := 3.

(** [type Settings] *)
Record Settings : Type := mkSettings {
  maxIPCount : Z;
  maxLatency : Q;
  ipRegex : string;
  sniValue : string;
  portValue : Z
}.

(** [type ScanState = "idle" | "stopping" | "scanning"] *)
Inductive ScanState : Type := idle | stopping | scanning.

Inductive Color : Type := red | green.

(** The fields of [ScannerStore] that are not settings.  The settings are
    persisted fields which the engine only reads, through the snapshot
    [state] the hook took when it was rendered; they are passed to the
    operations as that snapshot. *)
Record ScannerStore : Type := mkStore {
  testNo : Z;
  validIPs : list ValidIP;
  currentIP : string;
  tryChar : string;
  currentLatency : Z;
  color : Color;
  scanState : ScanState
}.

Definition ScanState_eqb (a b : ScanState) : bool :=
  match a, b with
  | idle, idle | stopping, stopping | scanning, scanning => true
  | _, _ => false
  end.

(** [settingsInitialValues] and [initialState] *)
Definition settingsInitialValues : Settings :=
  mkSettings 5 (1500 # 1) "" "" 80.

Definition initialState : ScannerStore :=
  mkStore 0 [] "" "" 0 red idle.

(** ** Store actions *)

(** [newArr.sort((a, b) => a.latency - b.latency)]: the sort of an array
    is stable, so among entries of equal latency the earlier one stays
    first; [place] puts an entry in front of the first entry that is not
    smaller, and [sortByLatency] places the entries from the last to the
    first. *)
Fixpoint place (v : ValidIP) (l : list ValidIP) : list ValidIP :=
  match l with
  | [] => [v]
  | w :: rest =>
      if latency v <=? latency w then v :: w :: rest
      else w :: place v rest
  end.

Fixpoint sortByLatency (l : list ValidIP) : list ValidIP :=
  match l with
  | [] => []
  | v :: rest => place v (sortByLatency rest)
  end.

(** The order of the result store. *)
Definition byLatency (a b : ValidIP) : Prop := latency a <= latency b.

(** [addValidIP(validIP)] *)
Definition addValidIP (validIP : ValidIP) (s : ScannerStore) : ScannerStore :=
  let newArr := validIPs s ++ [validIP] in
  mkStore (testNo s) (sortByLatency newArr) (currentIP s) (tryChar s)
          (currentLatency s) (color s) (scanState s).

(** [reset()] *)
Definition reset (s : ScannerStore) : ScannerStore :=
  mkStore 0 [] "" "" 0 red idle.

(** [increaseTestNo()] *)
Definition increaseTestNo (s : ScannerStore) : ScannerStore :=
  mkStore (testNo s + 1) (validIPs s) (currentIP s) (tryChar s)
          (currentLatency s) (color s) (scanState s).

(** [dispatch({ scanState: st })] *)
Definition dispatchScanState (st : ScanState) (s : ScannerStore) : ScannerStore :=
  mkStore (testNo s) (validIPs s) (currentIP s) (tryChar s)
          (currentLatency s) (color s) st.

(** [dispatch(newState)] for the partial state a probe attempt builds:
    [currentIP], [tryChar], [color] and [currentLatency]. *)
Definition dispatchProgress (cur : string) (tc : string) (c : Color) (lat : Z)
    (s : ScannerStore) : ScannerStore :=
  mkStore (testNo s) (validIPs s) cur tc lat c (scanState s).

Definition getScanState (s : ScannerStore) : ScanState := scanState s.

Definition getValidIPCount (s : ScannerStore) : Z :=
  Z.of_nat (List.length (validIPs s)).

(** [setToIdle()]: [dispatch({ scanState: "idle", tryChar: "" })] *)
Definition setToIdle (s : ScannerStore) : ScannerStore :=
  mkStore (testNo s) (validIPs s) (currentIP s) ""
          (currentLatency s) (color s) idle.

(** [stopScan()] *)
Definition stopScan (s : ScannerStore) : ScannerStore :=
  if ScanState_eqb (getScanState s) scanning
  then dispatchScanState stopping s
  else setToIdle s.

(** ** The environment of a scan *)

(** What [await axiosInstance.get(path)] can do: resolve with a response,
    or reject with a value.  The handler looks at a rejection through
    [error instanceof Error] and [error.name], so a rejection is either an
    [Error] object with its name or some other value. *)
Inductive Thrown : Type :=
  | ErrorObject (name : string)
  | NotAnError.

Inductive Outcome : Type :=
  | Resolved (status : Z)
  | Rejected (error : Thrown).

(** One probe attempt as the outside world plays it: the reading of
    [performance.now()] taken when the attempt is prepared, how the
    request ends, and whether [stopScan()] is called while the engine is
    suspended on the request. *)
Record Attempt : Type := mkAttempt {
  clock : Q;
  outcome : Outcome;
  stopPressed : bool
}.

(** One candidate as the outside world plays it: the clock when the
    candidate is started and when its attempts are over, and its
    attempts by index.  No statement of the loop body outside the inner
    [try] is guarded; [fault] makes the body throw at its first
    statement. *)
Record Run : Type := mkRun {
  startTime : Q;
  tries : nat -> Attempt;
  endTime : Q;
  fault : bool
}.

(** One invocation of [startScan] or [reStart] as the outside world
    plays it: the shuffle [randomizeElements] returns, and the run of the
    k-th candidate the loop visits. *)
Record World : Type := mkWorld {
  randomizeElements : list string -> list string;
  net : nat -> Run
}.

(** A request handed to the probe client: the arguments of
    [axiosWithSNI(url, sniValue, controller.signal, timeout)] and of
    [get(path)]; [abortAfter] is the delay of the timer that calls
    [controller.abort()] on the request's signal. *)
Record Request : Type := mkRequest {
  url : string;
  path : string;
  sni : string;
  abortAfter : Z;
  timeout : Q
}.

(** The engine's state: the store, and the requests sent so far. *)
Record Engine : Type := mkEngine {
  store : ScannerStore;
  sent : list Request
}.

Definition onStore (f : ScannerStore -> ScannerStore) (e : Engine) : Engine :=
  mkEngine (f (store e)) (sent e).

Definition send (q : Request) (e : Engine) : Engine :=
  mkEngine (store e) (sent e ++ [q]).

Inductive Exn : Type :=
  | SyntaxError
  | Unexpected.

(** How a computation that may throw ends. *)
Inductive Completion : Type :=
  | Returned (e : Engine)
  | Threw (x : Exn) (e : Engine).

Definition engineOf (c : Completion) : Engine :=
  match c with
  | Returned e => e
  | Threw _ e => e
  end.

Definition threw (c : Completion) : bool :=
  match c with
  | Returned _ => false
  | Threw _ _ => true
  end.

(** [Math.trunc] *)
Definition trunc (q : Q) : Z :=
  if Qle_bool 0 q then Qfloor q else Qceiling q.

(** The text of an integer in a template literal. *)
Definition numText (n : Z) : string := NilZero.string_of_int (Z.to_int n).

(** The handler of a probe attempt: does the attempt add one to
    [testCount]? *)
Definition counted (o : Outcome) : bool :=
  match o with
  | Resolved _ => true
  | Rejected (ErrorObject name) =>
      negb (existsb (String.eqb name) ["AbortError"; "TypeError"])
  | Rejected NotAnError => false
  end.

(** What happens to the store while the engine is suspended on the
    request of an attempt. *)
Definition pressStop (a : Attempt) (s : ScannerStore) : ScannerStore :=
  if stopPressed a then stopScan s else s.

(** ** The hook [useIPScanner] *)

(** [const ports = { http: [...], https: [...] }] *)
Definition ports_http : list Z := [80; 8080; 2052; 2082; 2086; 2095].
Definition ports_https : list Z := [443; 8443; 2053; 2083; 2087; 2096].

(** The two variables a candidate's attempts update. *)
Record Locals : Type := mkLocals {
  testCount : Z;
  nextTimeout : Q
}.

Section Hook.

(** The snapshot of the settings the hook was rendered with, the
    candidate list it was given, and [new RegExp(pattern)]: [None] when
    the pattern does not compile, else the pattern's [test]. *)
Variable state : Settings.
Variable allIps : list string.
Variable RegExp : string -> option (string -> bool).

(** [state.maxLatency <= 500 ? 1.5 : state.maxLatency <= 1000 ? 1.2 : 1] *)
Definition multiply : Q :=
  if Qle_bool (maxLatency state) (500 # 1) then 3 # 2
  else if Qle_bool (maxLatency state) (1000 # 1) then 6 # 5
  else 1 # 1.

Definition isSSL : bool :=
  negb (sniValue state =? "")%string
  && existsb (Z.eqb (portValue state)) ports_https.

Definition probeUrl (candidate : string) : string :=
  let port := if portValue state <? 80 then 80 else portValue state in
  if isSSL
  then ("https://" ++ candidate ++ ":" ++ numText (portValue state))%string
  else ("http://" ++ candidate ++ ":" ++ numText port)%string.

Definition probePath : string :=
  if isSSL then "/__down" else "/cdn-cgi/trace".

(** One turn of [for (let i = 0; i < MAX_TRIES; i++)].  The abort timer
    is set from [timeout] as the previous turn left it; [timeout] is
    then recomputed and handed to the probe client. *)
Definition attempt (candidate : string) (r : Run) (i : nat)
    (st : Locals * Engine) : Locals * Engine :=
  let '(loc, e) := st in
  let a := tries r i in
  let timer := trunc (nextTimeout loc) in
  let tc := nth i TRY_CHARS "" in
  let timeout' :=
    if (i =? 0)%nat then (multiply * maxLatency state)%Q
    else ((6 # 5) * multiply * maxLatency state)%Q in
  let c := if (i =? 0)%nat then red else green in
  let lat :=
    if (i =? 0)%nat then 0
    else Qfloor ((clock a - startTime r) / inject_Z (Z.of_nat i + 1)) in
  let e1 := onStore (dispatchProgress candidate tc c lat) e in
  let e2 := send (mkRequest (probeUrl candidate) probePath (sniValue state)
                            timer timeout') e1 in
  let e3 := onStore (pressStop a) e2 in
  let n := if counted (outcome a) then testCount loc + 1 else testCount loc in
  (mkLocals n timeout', e3).

Definition attempts (candidate : string) (r : Run) (e : Engine) : Locals * Engine :=
  fold_left (fun st i => attempt candidate r i st) (seq 0 MAX_TRIES)
    (mkLocals 0 ((3 # 2) * multiply * maxLatency state)%Q, e).

(** [Math.floor((performance.now() - startTime) / MAX_TRIES)] *)
Definition finalLatency (r : Run) : Z :=
  Qfloor ((endTime r - startTime r) / inject_Z (Z.of_nat MAX_TRIES)).

(** The body of [for (const ip of ipList)] up to the admission of the
    candidate. *)
Definition probe (candidate : string) (r : Run) (e : Engine) : Engine :=
  let e0 := onStore increaseTestNo e in
  let '(loc, e1) := attempts candidate r e0 in
  let lat := finalLatency r in
  if (testCount loc =? Z.of_nat MAX_TRIES)
     && Qle_bool (inject_Z lat) (maxLatency state)
     && (50 <? lat)
  then onStore (addValidIP (mkValidIP candidate lat)) e1
  else e1.

(** The test that ends the loop after a candidate. *)
Definition loopEnds (e : Engine) : bool :=
  negb (ScanState_eqb (getScanState (store e)) scanning)
  || (maxIPCount state <=? getValidIPCount (store e)).

(** [testIPs(ipList)]; [k] counts the candidates already visited. *)
Fixpoint testIPs (env : nat -> Run) (k : nat) (ipList : list string)
    (e : Engine) : Completion :=
  match ipList with
  | [] => Returned e
  | candidate :: rest =>
      if fault (env k) then Threw Unexpected e
      else
        let e1 := probe candidate (env k) e in
        if loopEnds e1 then Returned e1
        else testIPs env (S k) rest e1
  end.

(** The engine after each candidate the loop visits, in order: the
    points at which the stored results can have changed. *)
Fixpoint visited (env : nat -> Run) (k : nat) (ipList : list string)
    (e : Engine) : list Engine :=
  match ipList with
  | [] => []
  | candidate :: rest =>
      if fault (env k) then []
      else
        let e1 := probe candidate (env k) e in
        e1 :: (if loopEnds e1 then [] else visited env (S k) rest e1)
  end.

(** [state.ipRegex ? allIps.filter((el) => new RegExp(state.ipRegex).test(el)) : allIps];
    the pattern is compiled inside the callback, so only when there is
    an element to test. *)
Definition selectIPs : Exn + list string :=
  if (ipRegex state =? "")%string then inr allIps
  else
    match allIps with
    | [] => inr []
    | _ :: _ =>
        match RegExp (ipRegex state) with
        | None => inl SyntaxError
        | Some test => inr (filter test allIps)
        end
    end.

(** [startScan()]; the [catch] logs the exception and does nothing
    else. *)
Definition startScan (w : World) (e : Engine) : Engine :=
  let e0 := onStore reset e in
  match selectIPs with
  | inl _ => e0
  | inr ips =>
      let e1 := onStore (dispatchScanState scanning) e0 in
      match testIPs (net w) 0 (randomizeElements w ips) e1 with
      | Returned e2 => onStore setToIdle e2
      | Threw _ e2 => e2
      end
  end.

(** [reStart()]; dismissing the toast does not touch the store. *)
Definition reStart (w : World) (e : Engine) : Engine :=
  match selectIPs with
  | inl _ => e
  | inr ips =>
      let e1 := onStore (dispatchScanState scanning) e in
      match testIPs (net w) 0 (randomizeElements w ips) e1 with
      | Returned e2 => onStore setToIdle e2
      | Threw _ e2 => e2
      end
  end.

(** The engine at the moment the loop of a scan is entered, if it is. *)
Definition scanEntry (e : Engine) : option Engine :=
  match selectIPs with
  | inl _ => None
  | inr _ => Some (onStore (dispatchScanState scanning) e)
  end.

Definition startScanEntry (e : Engine) : option Engine :=
  scanEntry (onStore reset e).


(** The engine at the points of a [reStart] at which the store can be
    observed: when the [try] block is entered, when the loop is, after
    each candidate, and when the invocation is over; those of a
    [startScan] are the same from its reset on. *)
Definition scanMoments (w : World) (e : Engine) : list Engine :=
  e :: match selectIPs with
       | inl _ => []
       | inr ips =>
           let e1 := onStore (dispatchScanState scanning) e in
           e1 :: visited (net w) 0 (randomizeElements w ips) e1
       end
    ++ [reStart w e].

Definition startScanMoments (w : World) (e : Engine) : list Engine :=
  scanMoments w (onStore reset e).

Definition reStartMoments (w : World) (e : Engine) : list Engine :=
  scanMoments w e.

(** The operations a caller has, and their effect one after the other:
    each scan runs to its end before the next operation; a stop pressed
    while a scan runs is part of that scan's environment. *)
Inductive Op : Type :=
  | OpStartScan (w : World)
  | OpReStart (w : World)
  | OpStopScan.

Definition perform (e : Engine) (o : Op) : Engine :=
  match o with
  | OpStartScan w => startScan w e
  | OpReStart w => reStart w e
  | OpStopScan => onStore stopScan e
  end.

Definition performAll (ops : list Op) (e : Engine) : Engine :=
  fold_left perform ops e.

End Hook.

(** ** Vocabulary of the properties *)

(** The number of attempts of a run that the handler counts. *)
Definition successes (r : Run) : nat :=
  List.length
    (filter (fun i => counted (outcome (tries r i))) (seq 0 MAX_TRIES)).

(** The admission test of the loop body, as a proposition. *)
Definition admits (state : Settings) (r : Run) : Prop :=
  successes r = MAX_TRIES
  /\ (inject_Z (finalLatency r) <= maxLatency state)%Q
  /\ 50 < finalLatency r.

(** The value [timeout] is given in attempt [i]. *)
Definition timeoutOf (state : Settings) (i : nat) : Q :=
  if (i =? 0)%nat then (multiply state * maxLatency state)%Q
  else ((6 # 5) * multiply state * maxLatency state)%Q.

(** The request of an attempt, given the value [timeout] had before the
    attempt and the one it is given in it. *)
Definition requestOf (state : Settings) (candidate : string)
    (before after : Q) : Request :=
  mkRequest (probeUrl state candidate) (probePath state) (sniValue state)
            (trunc before) after.


(** ** Sample inputs *)

(** An attempt that is answered, and a candidate whose three attempts are
    answered and take [ms] milliseconds together. *)
Definition answered : Attempt := mkAttempt 0 (Resolved 200) false.

Definition steadyRun (ms : Z) : Run :=
  mkRun 0 (fun _ => answered) (inject_Z ms) false.

(** A candidate whose attempts are all aborted by their timer. *)
Definition deadRun (ms : Z) : Run :=
  mkRun 0 (fun _ => mkAttempt 0 (Rejected (ErrorObject "AbortError")) false)
        (inject_Z ms) false.

Definition settingsOf (count : Z) (ms : Z) : Settings :=
  mkSettings count (inject_Z ms) "" "" 80.

Definition freshEngine : Engine := mkEngine initialState [].

(** A pattern compiler that knows one pattern, which matches nothing. *)
Definition noMatch (pattern : string) : option (string -> bool) :=
  if (pattern =? "^$")%string then Some (fun _ => false) else None.

(** A world that leaves the list in the order given and plays every
    candidate the same way. *)
Definition steadyWorld (r : Run) : World :=
  mkWorld (fun l => l) (fun _ => r).

(** [n] candidates, all different. *)
Definition candidates (n : nat) : list string :=
  map (fun i => ("10.0.0." ++ numText (Z.of_nat i))%string) (seq 1 n).

(** A candidate during whose first attempt the stop button is pressed,
    and which answers all the same. *)
Definition stoppedRun (ms : Z) : Run :=
  mkRun 0 (fun i => mkAttempt 0 (Resolved 200) (i =? 0)%nat) (inject_Z ms) false.

(** A candidate at which the loop body throws. *)
Definition faultyRun : Run := mkRun 0 (fun _ => answered) 0 true.

(** The number of attempts of a run during which the stop button is
    pressed. *)
Definition presses (r : Run) : nat :=
  List.length (filter (fun i => stopPressed (tries r i)) (seq 0 MAX_TRIES)).

(** The state [stopScan] moves to. *)
Definition stopped (st : ScanState) : ScanState :=
  match st with
  | scanning => stopping
  | _ => idle
  end.

(** The store of an engine holds at most [bound] results. *)
Definition within (bound : Z) (e : Engine) : Prop :=
  getValidIPCount (store e) <= bound.

(** ** Vocabulary of the further properties *)

(** A stored result whose latency passed the admission test. *)
Definition inWindow (state : Settings) (v : ValidIP) : Prop :=
  50 < latency v /\ (inject_Z (latency v) <= maxLatency state)%Q.

(** A shuffle that returns nothing but elements of its argument. *)
Definition shuffleWithin (w : World) : Prop :=
  forall l x, In x (randomizeElements w l) -> In x l.

(** A world in which the loop body never throws. *)
Definition faultFree (env : nat -> Run) : Prop :=
  forall k, fault (env k) = false.

(** A world in which the stop button is never pressed. *)
Definition neverStopped (env : nat -> Run) : Prop :=
  forall k, presses (env k) = 0%nat.

(** A candidate the filter lets through: there is no pattern, or the
    pattern compiles and its [test] accepts the candidate. *)
Definition passesFilter (state : Settings)
    (RegExp : string -> option (string -> bool)) (c : string) : Prop :=
  ipRegex state = ""
  \/ exists test, RegExp (ipRegex state) = Some test /\ test c = true.

(** A request made to probe candidate [c]. *)
Definition targets (state : Settings) (c : string) (q : Request) : Prop :=
  url q = probeUrl state c /\ path q = probePath state
  /\ sni q = sniValue state.

(** ** The store as an object: [pick], [partialize] and [set] *)

(** The values the fields of the store hold. *)
Inductive JSValue : Type :=
  | JUndefined
  | JNumber (q : Q)
  | JString (s : string)
  | JResults (l : list ValidIP)
  | JFunction (name : string).

(** A plain object: its own properties, each key once. *)
Definition JSObject : Type := list (string * JSValue).

(** [Object.keys(o)] *)
Definition keysOf (o : JSObject) : list string := map fst o.

(** [o[key]] on a plain object whose own keys are the only ones asked
    for: the value of the property, [undefined] when there is none. *)
Fixpoint getProp (o : JSObject) (key : string) : JSValue :=
  match o with
  | [] => JUndefined
  | (k, v) :: rest => if (k =? key)%string then v else getProp rest key
  end.

(** Defining the property [key] of an object: the value is replaced when
    the key is there, and the property is added otherwise. *)
Fixpoint defineProperty (key : string) (v : JSValue) (o : JSObject) : JSObject :=
  match o with
  | [] => [(key, v)]
  | (k, w) :: rest =>
      if (k =? key)%string then (key, v) :: rest
      else (k, w) :: defineProperty key v rest
  end.

(** [Object.assign(o, entries)]: the entries are defined one after the
    other. *)
Definition assign (o : JSObject) (entries : list (string * JSValue)) : JSObject :=
  fold_left (fun acc kv => defineProperty (fst kv) (snd kv) acc) entries o.

(** [Object.fromEntries(entries)] *)
Definition fromEntries (entries : list (string * JSValue)) : JSObject :=
  assign [] entries.

(** [function pick(base, ...keys)] *)
Definition pick (base : JSObject) (keys : list string) : JSObject :=
  let entries := map (fun key => (key, getProp base key)) keys in
  fromEntries entries.

(** The settings as an object, in the key order of
    [settingsInitialValues]. *)
Definition settingsObject (cfg : Settings) : JSObject :=
  [ ("maxIPCount", JNumber (inject_Z (maxIPCount cfg)));
    ("maxLatency", JNumber (maxLatency cfg));
    ("ipRegex", JString (ipRegex cfg));
    ("sniValue", JString (sniValue cfg));
    ("portValue", JNumber (inject_Z (portValue cfg))) ].

Definition colorText (c : Color) : string :=
  match c with
  | red => "red"
  | green => "green"
  end.

Definition scanStateText (st : ScanState) : string :=
  match st with
  | idle => "idle"
  | stopping => "stopping"
  | scanning => "scanning"
  end.

(** The transient fields as an object, in the key order of
    [initialState]. *)
Definition transientObject (s : ScannerStore) : JSObject :=
  [ ("testNo", JNumber (inject_Z (testNo s)));
    ("validIPs", JResults (validIPs s));
    ("currentIP", JString (currentIP s));
    ("tryChar", JString (tryChar s));
    ("currentLatency", JNumber (inject_Z (currentLatency s)));
    ("color", JString (colorText (color s)));
    ("scanState", JString (scanStateText (scanState s))) ].

(** The actions of the store, in the order the creator defines them. *)
Definition actionsObject : JSObject :=
  map (fun name => (name, JFunction name))
      [ "getScanState"; "getValidIPCount"; "setSettings"; "dispatch";
        "addValidIP"; "reset"; "increaseTestNo" ].

(** The state object of the store: [{ ...initialState, getScanState, ... }]
    with the settings and transient fields as they stand. *)
Definition storeObject (cfg : Settings) (s : ScannerStore) : JSObject :=
  settingsObject cfg ++ transientObject s ++ actionsObject.

(** [partialize: (state) => pick(state, ...Object.keys(settingsInitialValues))] *)
Definition partialize (o : JSObject) : JSObject :=
  pick o (keysOf (settingsObject settingsInitialValues)).

(** [set(partial)] with an object: the store's state becomes
    [Object.assign({}, state, partial)]. *)
Definition setState (partial : JSObject) (o : JSObject) : JSObject :=
  assign o partial.

(** [setSettings(newSettings)] *)
Definition setSettings (newSettings : JSObject) (o : JSObject) : JSObject :=
  setState newSettings o.

(** The object [reset()] passes to [set]. *)
Definition resetPatch : JSObject :=
  [ ("testNo", JNumber 0); ("validIPs", JResults []);
    ("currentIP", JString ""); ("tryChar", JString "");
    ("currentLatency", JNumber 0); ("color", JString "red");
    ("scanState", JString "idle") ].
(** * Properties *)

(** ** The result store: [addValidIP] *)

Lemma place_permutation (v : ValidIP) (l : list ValidIP) :
  Permutation (place v l) (v :: l).
Proof.
  induction l as [|w rest IH]; simpl.
  - apply Permutation_refl.
  - destruct (latency v <=? latency w).
    + apply Permutation_refl.
    + apply Permutation_trans with (w :: v :: rest).
      * now apply perm_skip.
      * apply perm_swap.
Qed.

Lemma sortByLatency_permutation (l : list ValidIP) :
  Permutation (sortByLatency l) l.
Proof.
  induction l as [|v rest IH]; simpl.
  - apply perm_nil.
  - apply Permutation_trans with (v :: sortByLatency rest).
    + apply place_permutation.
    + now apply perm_skip.
Qed.

Lemma place_HdRel (v w : ValidIP) (l : list ValidIP) :
  byLatency w v -> HdRel byLatency w l -> HdRel byLatency w (place v l).
Proof.
  intros Hwv Hhd. destruct l as [|x rest]; simpl.
  - now constructor.
  - destruct (latency v <=? latency x); constructor; trivial.
    now inversion Hhd.
Qed.

Lemma place_sorted (v : ValidIP) (l : list ValidIP) :
  Sorted byLatency l -> Sorted byLatency (place v l).
Proof.
  induction 1 as [|w rest Hs IH Hhd]; simpl.
  - repeat constructor.
  - destruct (latency v <=? latency w) eqn:E.
    + apply Z.leb_le in E. repeat constructor; trivial.
    + apply Z.leb_gt in E. constructor; trivial.
      apply place_HdRel; trivial. unfold byLatency. lia.
Qed.

Lemma sortByLatency_sorted (l : list ValidIP) :
  Sorted byLatency (sortByLatency l).
Proof.
  induction l as [|v rest IH]; simpl.
  - constructor.
  - now apply place_sorted.
Qed.

Lemma sorted_neighbours (l : list ValidIP) :
  Sorted byLatency l ->
  forall i a b,
    nth_error l i = Some a -> nth_error l (S i) = Some b ->
    latency a <= latency b.
Proof.
  induction 1 as [|w rest Hs IH Hhd]; intros i a b Ha Hb.
  - destruct i; discriminate.
  - destruct i as [|i]; simpl in Ha, Hb.
    + injection Ha as <-. destruct rest as [|x rest']; [discriminate|].
      simpl in Hb. injection Hb as <-. now inversion Hhd.
    + now apply (IH i).
Qed.

Lemma sortByLatency_length (l : list ValidIP) :
  List.length (sortByLatency l) = List.length l.
Proof. apply Permutation_length, sortByLatency_permutation. Qed.

(** C5: after [addValidIP] the stored results are in ascending order of
    latency (each entry's latency is at most that of the entry after it)
    and are a rearrangement of the entries stored before together with
    the new one, so one entry more than before. *)
Theorem addValidIP_sorted_permutation (v : ValidIP) (s : ScannerStore) :
  (forall i a b,
      nth_error (validIPs (addValidIP v s)) i = Some a ->
      nth_error (validIPs (addValidIP v s)) (S i) = Some b ->
      latency a <= latency b)
  /\ Permutation (validIPs (addValidIP v s)) (validIPs s ++ [v])
  /\ List.length (validIPs (addValidIP v s)) = S (List.length (validIPs s)).
Proof.
  split; [|split].
  - apply sorted_neighbours. simpl. apply sortByLatency_sorted.
  - simpl. apply sortByLatency_permutation.
  - simpl. rewrite sortByLatency_length, length_app. simpl. lia.
Qed.

(** ** One candidate: the attempts and the admission *)

Section Candidate.

Variable state : Settings.

Lemma attempt_locals (candidate : string) (r : Run) (i : nat)
    (loc : Locals) (e : Engine) :
  fst (attempt state candidate r i (loc, e)) =
  mkLocals (if counted (outcome (tries r i))
            then testCount loc + 1 else testCount loc)
           (timeoutOf state i).
Proof. reflexivity. Qed.

Lemma attempt_engine (candidate : string) (r : Run) (i : nat)
    (loc : Locals) (e : Engine) :
  snd (attempt state candidate r i (loc, e)) =
  mkEngine
    (pressStop (tries r i)
       (dispatchProgress candidate (nth i TRY_CHARS "")
          (if (i =? 0)%nat then red else green)
          (if (i =? 0)%nat then 0
           else Qfloor ((clock (tries r i) - startTime r)
                        / inject_Z (Z.of_nat i + 1)))
          (store e)))
    (sent e ++ [requestOf state candidate (nextTimeout loc) (timeoutOf state i)]).
Proof.
  unfold attempt, pressStop.
  destruct (stopPressed (tries r i)); reflexivity.
Qed.

Lemma attempt_pair (candidate : string) (r : Run) (i : nat)
    (st : Locals * Engine) :
  attempt state candidate r i st =
  (fst (attempt state candidate r i (fst st, snd st)),
   snd (attempt state candidate r i (fst st, snd st))).
Proof. destruct st. apply surjective_pairing. Qed.

(** The three turns of the loop, one after the other. *)
Lemma attempts_unfold (candidate : string) (r : Run) (e : Engine) :
  attempts state candidate r e =
  attempt state candidate r 2
    (attempt state candidate r 1
       (attempt state candidate r 0
          (mkLocals 0 ((3 # 2) * multiply state * maxLatency state)%Q, e))).
Proof. reflexivity. Qed.

Lemma pressStop_validIPs (a : Attempt) (s : ScannerStore) :
  validIPs (pressStop a s) = validIPs s /\ testNo (pressStop a s) = testNo s.
Proof.
  unfold pressStop, stopScan.
  destruct (stopPressed a); [|auto].
  destruct (ScanState_eqb (getScanState s) scanning); auto.
Qed.

Lemma attempts_testCount (candidate : string) (r : Run) (e : Engine) :
  testCount (fst (attempts state candidate r e)) = Z.of_nat (successes r).
Proof.
  rewrite attempts_unfold.
  rewrite (attempt_pair _ _ 2), attempt_locals.
  rewrite (attempt_pair _ _ 1), attempt_locals.
  rewrite attempt_locals.
  unfold successes, MAX_TRIES. cbn [seq filter fst snd testCount].
  destruct (counted (outcome (tries r 0)));
    destruct (counted (outcome (tries r 1)));
    destruct (counted (outcome (tries r 2))); reflexivity.
Qed.

Lemma attempts_sent (candidate : string) (r : Run) (e : Engine) :
  sent (snd (attempts state candidate r e)) =
  sent e ++
    [ requestOf state candidate ((3 # 2) * multiply state * maxLatency state)%Q
                (timeoutOf state 0);
      requestOf state candidate (timeoutOf state 0) (timeoutOf state 1);
      requestOf state candidate (timeoutOf state 1) (timeoutOf state 2) ].
Proof.
  rewrite attempts_unfold.
  rewrite (attempt_pair _ _ 2), attempt_engine.
  rewrite (attempt_pair _ _ 1), attempt_engine, attempt_locals.
  rewrite attempt_engine, attempt_locals.
  cbn [fst snd sent nextTimeout].
  rewrite <- !app_assoc. reflexivity.
Qed.

Lemma attempts_store (candidate : string) (r : Run) (e : Engine) :
  validIPs (store (snd (attempts state candidate r e))) = validIPs (store e)
  /\ testNo (store (snd (attempts state candidate r e))) = testNo (store e).
Proof.
  rewrite attempts_unfold.
  rewrite (attempt_pair _ _ 2), attempt_engine.
  rewrite (attempt_pair _ _ 1), attempt_engine.
  rewrite attempt_engine.
  cbn [fst snd store].
  repeat match goal with
         | |- context [pressStop ?a ?s] =>
             destruct (pressStop_validIPs a s) as [-> ->];
             cbn [validIPs testNo dispatchProgress]
         end.
  split; reflexivity.
Qed.

End Candidate.

Lemma probe_unfold (state : Settings) (candidate : string) (r : Run) (e : Engine) :
  probe state candidate r e =
  let p := attempts state candidate r (onStore increaseTestNo e) in
  if (testCount (fst p) =? Z.of_nat MAX_TRIES)
     && Qle_bool (inject_Z (finalLatency r)) (maxLatency state)
     && (50 <? finalLatency r)
  then onStore (addValidIP (mkValidIP candidate (finalLatency r))) (snd p)
  else snd p.
Proof.
  unfold probe. destruct (attempts state candidate r (onStore increaseTestNo e)).
  reflexivity.
Qed.

Lemma probe_sent (state : Settings) (candidate : string) (r : Run) (e : Engine) :
  sent (probe state candidate r e) =
  sent (snd (attempts state candidate r (onStore increaseTestNo e))).
Proof.
  rewrite probe_unfold. cbv zeta.
  match goal with |- context [if ?b then _ else _] => destruct b end;
    reflexivity.
Qed.

Lemma probe_testNo (state : Settings) (candidate : string) (r : Run) (e : Engine) :
  testNo (store (probe state candidate r e)) = testNo (store e) + 1.
Proof.
  rewrite probe_unfold. cbv zeta.
  destruct (attempts_store state candidate r (onStore increaseTestNo e)) as [_ Hn].
  match goal with |- context [if ?b then _ else _] => destruct b end;
    cbn [onStore store addValidIP testNo]; rewrite Hn; reflexivity.
Qed.

Lemma probe_scanState (state : Settings) (candidate : string) (r : Run) (e : Engine) :
  scanState (store (probe state candidate r e)) =
  scanState (store (snd (attempts state candidate r (onStore increaseTestNo e)))).
Proof.
  rewrite probe_unfold. cbv zeta.
  match goal with |- context [if ?b then _ else _] => destruct b end;
    reflexivity.
Qed.

Lemma admits_iff (state : Settings) (candidate : string) (r : Run) (e : Engine) :
  (testCount (fst (attempts state candidate r (onStore increaseTestNo e)))
     =? Z.of_nat MAX_TRIES)
  && Qle_bool (inject_Z (finalLatency r)) (maxLatency state)
  && (50 <? finalLatency r) = true
  <-> admits state r.
Proof.
  rewrite attempts_testCount, !andb_true_iff, Z.eqb_eq, Qle_bool_iff, Z.ltb_lt.
  unfold admits. rewrite Nat2Z.inj_iff. tauto.
Qed.

Lemma probe_validIPs (state : Settings) (candidate : string) (r : Run) (e : Engine) :
  (admits state r ->
   validIPs (store (probe state candidate r e)) =
   sortByLatency (validIPs (store e) ++ [mkValidIP candidate (finalLatency r)]))
  /\ (~ admits state r ->
      validIPs (store (probe state candidate r e)) = validIPs (store e)).
Proof.
  rewrite probe_unfold. cbv zeta.
  pose proof (admits_iff state candidate r e) as Hiff.
  destruct (attempts_store state candidate r (onStore increaseTestNo e)) as [Hv _].
  match goal with |- context [if ?b then _ else _] => destruct b end.
  - split; intros H.
    + cbn [onStore store addValidIP validIPs]. rewrite Hv. reflexivity.
    + exfalso. apply H, Hiff. reflexivity.
  - split; intros H.
    + apply Hiff in H. discriminate.
    + rewrite Hv. reflexivity.
Qed.


(** The edges of the admission test, with [maxLatency = 1500]: a final
    latency of 50 is refused, 51 is admitted, 1500 is admitted, 1501 is
    refused; and three answered attempts are needed. *)
Example latency_50_refused :
  validIPs (store (probe (settingsOf 5 1500) "1.1.1.1" (steadyRun 152) freshEngine))
  = [].
Proof. reflexivity. Qed.

Example latency_51_admitted :
  validIPs (store (probe (settingsOf 5 1500) "1.1.1.1" (steadyRun 153) freshEngine))
  = [mkValidIP "1.1.1.1" 51].
Proof. reflexivity. Qed.

Example latency_max_admitted :
  validIPs (store (probe (settingsOf 5 1500) "1.1.1.1" (steadyRun 4502) freshEngine))
  = [mkValidIP "1.1.1.1" 1500].
Proof. reflexivity. Qed.

Example latency_above_max_refused :
  validIPs (store (probe (settingsOf 5 1500) "1.1.1.1" (steadyRun 4503) freshEngine))
  = [].
Proof. reflexivity. Qed.

Example aborted_attempts_refused :
  validIPs (store (probe (settingsOf 5 1500) "1.1.1.1" (deadRun 300) freshEngine))
  = [].
Proof. reflexivity. Qed.

(** ** The attempts: what counts, and the deadlines *)





(** With [maxLatency = 2000] the multiplier is 1: the time-outs handed to
    the probe client are 2000, 2400 and 2400. *)
Example timeouts_at_2000 :
  map (fun q => Qred (timeout q))
      (sent (probe (settingsOf 5 2000) "1.1.1.1" (steadyRun 300) freshEngine))
  = [2000 # 1; 2400 # 1; 2400 # 1].
Proof. vm_compute. reflexivity. Qed.



(** ** The loop [testIPs] *)

Section Loop.

Variable state : Settings.

Lemma admits_dec (r : Run) : admits state r \/ ~ admits state r.
Proof.
  destruct (admits_iff state "" r freshEngine) as [H1 H2].
  match type of H1 with ?b = true -> _ => destruct b end.
  - left. now apply H1.
  - right. intros H. apply H2 in H. discriminate.
Qed.

Lemma probe_count (candidate : string) (r : Run) (e : Engine) :
  getValidIPCount (store e) <= getValidIPCount (store (probe state candidate r e))
  <= getValidIPCount (store e) + 1.
Proof.
  unfold getValidIPCount.
  destruct (probe_validIPs state candidate r e) as [Hyes Hno].
  destruct (admits_dec r) as [H|H].
  - rewrite (Hyes H), sortByLatency_length, length_app. simpl. lia.
  - rewrite (Hno H). lia.
Qed.


Lemma loopEnds_false (e : Engine) :
  loopEnds state e = false ->
  scanState (store e) = scanning
  /\ getValidIPCount (store e) < maxIPCount state.
Proof.
  unfold loopEnds, getScanState. intros H.
  apply orb_false_iff in H. destruct H as [H1 H2].
  apply Z.leb_gt in H2. split; [|exact H2].
  destruct (scanState (store e)); simpl in H1; congruence.
Qed.

Lemma last_nonempty (l : list Engine) :
  forall x d d', last (x :: l) d = last (x :: l) d'.
Proof.
  induction l as [|y l IH]; intros x d d'; [reflexivity|].
  change (last (y :: l) d = last (y :: l) d'). apply IH.
Qed.

(** The loop returns the last engine of its trace. *)
Lemma testIPs_last (env : nat -> Run) (ipList : list string) :
  forall k e,
    engineOf (testIPs state env k ipList e) = last (visited state env k ipList e) e.
Proof.
  induction ipList as [|candidate rest IH]; intros k e; simpl.
  - reflexivity.
  - destruct (fault (env k)); [reflexivity|].
    destruct (loopEnds state (probe state candidate (env k) e)) eqn:E.
    + reflexivity.
    + rewrite IH.
      destruct (visited state env (S k) rest (probe state candidate (env k) e))
        as [|e2 l]; [reflexivity|].
      change (last (e2 :: l) (probe state candidate (env k) e) = last (e2 :: l) e).
      apply last_nonempty.
Qed.

(** A loop entered in state [scanning] can only throw in that state. *)
Lemma testIPs_throws_scanning (env : nat -> Run) (ipList : list string) :
  forall k e x e',
    scanState (store e) = scanning ->
    testIPs state env k ipList e = Threw x e' ->
    scanState (store e') = scanning.
Proof.
  induction ipList as [|candidate rest IH]; intros k e x e' Hs H; simpl in H.
  - discriminate.
  - destruct (fault (env k)).
    + injection H as _ <-. exact Hs.
    + destruct (loopEnds state (probe state candidate (env k) e)) eqn:E.
      * discriminate.
      * apply (IH _ _ _ _ (proj1 (loopEnds_false _ E)) H).
Qed.

End Loop.



(** [startScan] is [reset] followed by what [reStart] does. *)
Lemma startScan_reset (state : Settings) (allIps : list string)
    (RegExp : string -> option (string -> bool)) (w : World) (e : Engine) :
  startScan state allIps RegExp w e
  = reStart state allIps RegExp w (onStore reset e).
Proof. reflexivity. Qed.

(** ** The bound on the result store *)

Section Bound.

Variable state : Settings.
Variable allIps : list string.
Variable RegExp : string -> option (string -> bool).

(** A loop entered with room for one more result never goes over the
    bound: it goes on only while the store is below [maxIPCount]. *)
Lemma visited_within (env : nat -> Run) (bound : Z) (ipList : list string) :
  maxIPCount state <= bound ->
  forall k e,
    getValidIPCount (store e) + 1 <= bound ->
    Forall (within bound) (visited state env k ipList e).
Proof.
  intros Hb. induction ipList as [|candidate rest IH]; intros k e He; simpl.
  - constructor.
  - destruct (fault (env k)); [constructor|].
    pose proof (probe_count state candidate (env k) e) as Hc.
    constructor; [unfold within; lia|].
    destruct (loopEnds state (probe state candidate (env k) e)) eqn:E.
    + constructor.
    + apply IH. apply loopEnds_false in E. lia.
Qed.

Lemma last_within (bound : Z) (l : list Engine) (d : Engine) :
  within bound d -> Forall (within bound) l -> within bound (last l d).
Proof.
  intros Hd Hl. revert d Hd.
  induction Hl as [|x l Hx Hl IH]; intros d Hd; [exact Hd|].
  destruct l as [|y l']; [exact Hx|].
  change (within bound (last (y :: l') d)). apply (IH d Hd).
Qed.

Lemma reStart_within (w : World) (bound : Z) (e : Engine) :
  maxIPCount state <= bound ->
  getValidIPCount (store e) + 1 <= bound ->
  Forall (within bound) (scanMoments state allIps RegExp w e).
Proof.
  intros Hb He. unfold scanMoments, reStart.
  assert (H0 : within bound e) by (unfold within; lia).
  constructor; [exact H0|].
  destruct (selectIPs state allIps RegExp) as [x|ips]; simpl.
  - constructor; [exact H0|constructor].
  - set (e1 := onStore (dispatchScanState scanning) e).
    assert (H1 : within bound e1) by exact H0.
    assert (Hv : Forall (within bound)
                   (visited state (net w) 0 (randomizeElements w ips) e1)).
    { apply visited_within; [exact Hb|exact He]. }
    constructor; [exact H1|].
    apply Forall_app. split; [exact Hv|].
    constructor; [|constructor].
    pose proof (testIPs_last state (net w) (randomizeElements w ips) 0 e1) as Hl.
    pose proof (last_within bound _ e1 H1 Hv) as Hw.
    rewrite <- Hl in Hw.
    destruct (testIPs state (net w) 0 (randomizeElements w ips) e1); exact Hw.
Qed.

End Bound.

(** C4, the claim as stated fails: with [maxIPCount = 1], a scan that
    found its one result followed by a deeper search ends with two
    results in the store. *)
Lemma reStart_overfills_store :
  maxIPCount (settingsOf 1 1500) = 1
  /\ getValidIPCount
       (store (performAll (settingsOf 1 1500) ["1.1.1.1"; "2.2.2.2"] noMatch
                 [OpStartScan (steadyWorld (steadyRun 300))]
                 freshEngine)) = 1
  /\ getValidIPCount
       (store (performAll (settingsOf 1 1500) ["1.1.1.1"; "2.2.2.2"] noMatch
                 [OpStartScan (steadyWorld (steadyRun 300));
                  OpReStart (steadyWorld (steadyRun 300))]
                 freshEngine)) = 2.
Proof. repeat split; vm_compute; reflexivity. Qed.

(** C4, amended: when [maxIPCount] is at least 1, the store holds at most
    [maxIPCount] results at every point of a [startScan], from its reset
    to its end; [reStart] does not reset, and at every point of a
    [reStart] entered with [n] results the store holds at most the
    larger of [maxIPCount] and [n + 1]; [stopScan] leaves the results as
    they are. *)
Theorem store_bound (state : Settings) (allIps : list string)
    (RegExp : string -> option (string -> bool)) (w : World) (e : Engine) :
  1 <= maxIPCount state ->
  Forall (fun e' => getValidIPCount (store e') <= maxIPCount state)
         (startScanMoments state allIps RegExp w e)
  /\ last (startScanMoments state allIps RegExp w e) e
     = startScan state allIps RegExp w e
  /\ Forall (fun e' => getValidIPCount (store e')
                       <= Z.max (maxIPCount state) (getValidIPCount (store e) + 1))
            (reStartMoments state allIps RegExp w e)
  /\ last (reStartMoments state allIps RegExp w e) e
     = reStart state allIps RegExp w e
  /\ validIPs (stopScan (store e)) = validIPs (store e).
Proof.
  intros Hmax. repeat split.
  - apply (reStart_within state allIps RegExp w (maxIPCount state));
      [lia|exact Hmax].
  - unfold startScanMoments, scanMoments. rewrite app_comm_cons.
    apply last_last.
  - apply (reStart_within state allIps RegExp w); lia.
  - unfold reStartMoments, scanMoments. rewrite app_comm_cons.
    apply last_last.
  - unfold stopScan. destruct (ScanState_eqb (getScanState (store e)) scanning);
      reflexivity.
Qed.

Lemma store_bound_witness :
  Forall (fun e' => getValidIPCount (store e') <= 2)
         (startScanMoments (settingsOf 2 1500) (candidates 5) noMatch
            (steadyWorld (steadyRun 300)) freshEngine)
  /\ testNo (store (startScan (settingsOf 2 1500) (candidates 5) noMatch
                      (steadyWorld (steadyRun 300)) freshEngine)) = 2.
Proof.
  split.
  - apply (store_bound (settingsOf 2 1500) (candidates 5) noMatch
             (steadyWorld (steadyRun 300)) freshEngine).
    vm_compute. discriminate.
  - reflexivity.
Defined.

(** ** Starting a scan *)

(** An invocation is its [try] block run from the point of entry. *)
Lemma reStart_from_entry (state : Settings) (allIps : list string)
    (RegExp : string -> option (string -> bool)) (w : World) (e : Engine) :
  reStart state allIps RegExp w e =
  match scanEntry state allIps RegExp e, selectIPs state allIps RegExp with
  | Some e1, inr ips =>
      match testIPs state (net w) 0 (randomizeElements w ips) e1 with
      | Returned e2 => onStore setToIdle e2
      | Threw _ e2 => e2
      end
  | _, _ => e
  end.
Proof.
  unfold reStart, scanEntry.
  destruct (selectIPs state allIps RegExp); reflexivity.
Qed.



(** ** Exceptions *)

(** When the loop throws, the handler of [startScan] and of [reStart]
    logs and returns: the state stays [scanning]. *)
Lemma reStart_throw_leaves_scanning (state : Settings) (allIps : list string)
    (RegExp : string -> option (string -> bool)) (w : World) (e : Engine)
    (ips : list string) :
  selectIPs state allIps RegExp = inr ips ->
  threw (testIPs state (net w) 0 (randomizeElements w ips)
           (onStore (dispatchScanState scanning) e)) = true ->
  scanState (store (reStart state allIps RegExp w e)) = scanning.
Proof.
  intros Hsel Hthrow. unfold reStart. rewrite Hsel.
  destruct (testIPs state (net w) 0 (randomizeElements w ips)
              (onStore (dispatchScanState scanning) e)) as [e2|x e2] eqn:E.
  - discriminate.
  - apply (testIPs_throws_scanning state (net w) (randomizeElements w ips) 0
             (onStore (dispatchScanState scanning) e) x e2); [reflexivity|exact E].
Qed.

(** C7: an exception thrown by the loop body at the second candidate is
    caught by [startScan], which returns with the state still
    [scanning]; the same holds for [reStart]. *)
Theorem exception_leaves_scanning :
  scanState
    (store (startScan (settingsOf 5 1500) ["1.1.1.1"; "2.2.2.2"] noMatch
              (mkWorld (fun l => l)
                 (fun k => if (k =? 1)%nat then faultyRun else deadRun 4500))
              freshEngine)) = scanning
  /\ scanState
       (store (reStart (settingsOf 5 1500) ["1.1.1.1"; "2.2.2.2"] noMatch
                 (mkWorld (fun l => l)
                    (fun k => if (k =? 1)%nat then faultyRun else deadRun 4500))
                 freshEngine)) = scanning.
Proof. split; vm_compute; reflexivity. Qed.

(** ** Stopping *)

Lemma stopScan_scanState (s : ScannerStore) :
  scanState (stopScan s) = stopped (scanState s).
Proof. unfold stopScan, getScanState. destruct (scanState s); reflexivity. Qed.

Lemma pressStop_scanState (a : Attempt) (s : ScannerStore) :
  scanState (pressStop a s) =
  if stopPressed a then stopped (scanState s) else scanState s.
Proof.
  unfold pressStop. destruct (stopPressed a); [apply stopScan_scanState|reflexivity].
Qed.

Lemma attempts_scanState (state : Settings) (candidate : string) (r : Run)
    (e : Engine) :
  scanState (store e) = scanning ->
  scanState (store (snd (attempts state candidate r e))) =
  match presses r with
  | 0%nat => scanning
  | 1%nat => stopping
  | _ => idle
  end.
Proof.
  intros Hs. rewrite attempts_unfold.
  rewrite (attempt_pair _ _ _ 2), attempt_engine.
  rewrite (attempt_pair _ _ _ 1), attempt_engine.
  rewrite attempt_engine.
  cbn [fst snd store].
  repeat (rewrite pressStop_scanState; cbn [scanState dispatchProgress]).
  rewrite Hs.
  unfold presses, MAX_TRIES. cbn [seq filter].
  destruct (stopPressed (tries r 0));
    destruct (stopPressed (tries r 1));
    destruct (stopPressed (tries r 2)); reflexivity.
Qed.

Lemma probe_sent_length (state : Settings) (candidate : string) (r : Run)
    (e : Engine) :
  List.length (sent (probe state candidate r e)) = (List.length (sent e) + 3)%nat.
Proof. rewrite probe_sent, attempts_sent, length_app. reflexivity. Qed.

(** A scan whose loop returns ends in state [idle]. *)
Lemma reStart_returns_idle (state : Settings) (allIps : list string)
    (RegExp : string -> option (string -> bool)) (w : World) (e : Engine)
    (ips : list string) :
  selectIPs state allIps RegExp = inr ips ->
  threw (testIPs state (net w) 0 (randomizeElements w ips)
           (onStore (dispatchScanState scanning) e)) = false ->
  scanState (store (reStart state allIps RegExp w e)) = idle.
Proof.
  intros Hsel Hret. unfold reStart. rewrite Hsel.
  destruct (testIPs state (net w) 0 (randomizeElements w ips)
              (onStore (dispatchScanState scanning) e)); [reflexivity|discriminate].
Qed.

(** C9, the claim as stated fails: the stop pressed during the first
    attempt of a candidate moves the state to [stopping] at once, and the
    second and third attempts of the candidate are sent all the same;
    the candidate is even admitted. *)
Lemma stop_not_observed_between_attempts :
  stopPressed (tries (stoppedRun 300) 0) = true
  /\ scanState
       (store (snd (attempt (settingsOf 5 1500) "1.1.1.1" (stoppedRun 300) 0
                      (mkLocals 0 0,
                       onStore (dispatchScanState scanning) freshEngine))))
     = stopping
  /\ map url
       (sent (probe (settingsOf 5 1500) "1.1.1.1" (stoppedRun 300)
                (onStore (dispatchScanState scanning) freshEngine)))
     = ["http://1.1.1.1:80"; "http://1.1.1.1:80"; "http://1.1.1.1:80"]
  /\ validIPs
       (store (probe (settingsOf 5 1500) "1.1.1.1" (stoppedRun 300)
                 (onStore (dispatchScanState scanning) freshEngine)))
     = [mkValidIP "1.1.1.1" 100].
Proof. repeat split; vm_compute; reflexivity. Qed.

(** C9, amended: [stopScan] in state [scanning] moves the state to
    [stopping], in any other state to [idle].  The loop looks at the
    state only after a candidate: when the stop is pressed during the
    attempts of a candidate, all three attempts of that candidate are
    made, the loop returns after it without visiting another candidate,
    the state being [stopping] (or [idle], had the stop been pressed
    more than once); and a scan whose loop returns ends in state
    [idle]. *)
Theorem stop_is_cooperative (state : Settings) (env : nat -> Run) (k : nat)
    (candidate : string) (rest : list string) (e : Engine) :
  scanState (store e) = scanning ->
  fault (env k) = false ->
  (1 <= presses (env k))%nat ->
  scanState (stopScan (store e)) = stopping
  /\ (forall s, scanState s <> scanning -> scanState (stopScan s) = idle)
  /\ testIPs state env k (candidate :: rest) e
     = Returned (probe state candidate (env k) e)
  /\ List.length (sent (probe state candidate (env k) e))
     = (List.length (sent e) + 3)%nat
  /\ scanState (store (probe state candidate (env k) e))
     = (if (presses (env k) =? 1)%nat then stopping else idle)
  /\ (forall allIps RegExp w e0 ips,
        selectIPs state allIps RegExp = inr ips ->
        threw (testIPs state (net w) 0 (randomizeElements w ips)
                 (onStore (dispatchScanState scanning) e0)) = false ->
        scanState (store (reStart state allIps RegExp w e0)) = idle).
Proof.
  intros Hs Hf Hp.
  assert (Hstate : scanState (store (probe state candidate (env k) e))
                   = if (presses (env k) =? 1)%nat then stopping else idle).
  { rewrite probe_scanState, attempts_scanState by exact Hs.
    destruct (presses (env k)) as [|[|n]]; [lia|reflexivity|reflexivity]. }
  repeat split.
  - rewrite stopScan_scanState, Hs. reflexivity.
  - intros s Hn. rewrite stopScan_scanState.
    destruct (scanState s); [reflexivity|reflexivity|now elim Hn].
  - simpl. rewrite Hf.
    assert (Hend : loopEnds state (probe state candidate (env k) e) = true).
    { unfold loopEnds, getScanState. rewrite Hstate.
      destruct (presses (env k) =? 1)%nat; reflexivity. }
    rewrite Hend. reflexivity.
  - apply probe_sent_length.
  - exact Hstate.
  - intros allIps RegExp w e0 ips. apply reStart_returns_idle.
Qed.

Lemma stop_is_cooperative_witness :
  testIPs (settingsOf 5 1500)
          (fun i => if (i =? 0)%nat then stoppedRun 300 else steadyRun 300) 0
          ["1.1.1.1"; "2.2.2.2"]
          (onStore (dispatchScanState scanning) freshEngine)
  = Returned (probe (settingsOf 5 1500) "1.1.1.1" (stoppedRun 300)
                (onStore (dispatchScanState scanning) freshEngine))
  /\ scanState
       (store (startScan (settingsOf 5 1500) ["1.1.1.1"; "2.2.2.2"] noMatch
                 (mkWorld (fun l => l)
                    (fun i => if (i =? 0)%nat then stoppedRun 300 else steadyRun 300))
                 freshEngine)) = idle.
Proof.
  split.
  - apply (stop_is_cooperative (settingsOf 5 1500)
             (fun i => if (i =? 0)%nat then stoppedRun 300 else steadyRun 300) 0
             "1.1.1.1" ["2.2.2.2"]
             (onStore (dispatchScanState scanning) freshEngine)).
    + reflexivity.
    + reflexivity.
    + vm_compute. lia.
  - reflexivity.
Defined.

(** ** Nothing to probe *)

Lemma selectIPs_empty (state : Settings) (allIps : list string)
    (RegExp : string -> option (string -> bool)) :
  allIps = []
  \/ (ipRegex state <> ""
      /\ exists test, RegExp (ipRegex state) = Some test
                      /\ forall c, In c allIps -> test c = false) ->
  selectIPs state allIps RegExp = inr [].
Proof.
  unfold selectIPs. intros [->|[Hne [test [Hre Hall]]]].
  - destruct (ipRegex state =? "")%string; reflexivity.
  - apply String.eqb_neq in Hne. rewrite Hne, Hre.
    destruct allIps as [|c rest]; [reflexivity|].
    f_equal. induction (c :: rest) as [|c' l IH]; [reflexivity|].
    simpl. rewrite (Hall c' (or_introl eq_refl)).
    apply IH. intros c'' Hin. apply Hall. now right.
Qed.

(** C10: when the candidate list is empty, or the filter pattern matches
    none of the candidates, [startScan] sends no request and ends in
    state [idle] with an empty result store and the attempt counter at
    zero.  The shuffle is taken to return a rearrangement of its
    argument. *)
Theorem startScan_nothing_to_probe (state : Settings) (allIps : list string)
    (RegExp : string -> option (string -> bool)) (w : World) (e : Engine) :
  (forall l, Permutation l (randomizeElements w l)) ->
  allIps = []
  \/ (ipRegex state <> ""
      /\ exists test, RegExp (ipRegex state) = Some test
                      /\ forall c, In c allIps -> test c = false) ->
  scanState (store (startScan state allIps RegExp w e)) = idle
  /\ validIPs (store (startScan state allIps RegExp w e)) = []
  /\ testNo (store (startScan state allIps RegExp w e)) = 0
  /\ sent (startScan state allIps RegExp w e) = sent e.
Proof.
  intros Hperm Hnone. unfold startScan, reStart.
  rewrite (selectIPs_empty state allIps RegExp Hnone).
  rewrite (Permutation_nil (Hperm [])). simpl. auto.
Qed.

Lemma startScan_nothing_to_probe_witness :
  scanState
    (store (startScan (mkSettings 5 1500 "^$" "" 80) (candidates 3) noMatch
              (steadyWorld (steadyRun 300)) freshEngine)) = idle
  /\ validIPs
       (store (startScan (mkSettings 5 1500 "^$" "" 80) (candidates 3) noMatch
                 (steadyWorld (steadyRun 300)) freshEngine)) = []
  /\ testNo
       (store (startScan (mkSettings 5 1500 "^$" "" 80) (candidates 3) noMatch
                 (steadyWorld (steadyRun 300)) freshEngine)) = 0
  /\ sent (startScan (mkSettings 5 1500 "^$" "" 80) (candidates 3) noMatch
             (steadyWorld (steadyRun 300)) freshEngine) = sent freshEngine.
Proof.
  apply (startScan_nothing_to_probe (mkSettings 5 1500 "^$" "" 80)
           (candidates 3) noMatch (steadyWorld (steadyRun 300)) freshEngine).
  - intros l. apply Permutation_refl.
  - right. split; [discriminate|].
    exists (fun _ => false). split; reflexivity.
Defined.

From Stdlib Require Import Lqa.

(** * Further properties of the engine *)

(** ** What a scan keeps true *)

Section Invariants.

Variable state : Settings.
Variable allIps : list string.
Variable RegExp : string -> option (string -> bool).

(** What every visit of a candidate of the list keeps true, the loop
    keeps true. *)
Lemma testIPs_keeps (P : Engine -> Prop) (env : nat -> Run)
    (ipList : list string) :
  (forall c r e, In c ipList -> P e -> P (probe state c r e)) ->
  forall k e, P e -> P (engineOf (testIPs state env k ipList e)).
Proof.
  induction ipList as [|candidate rest IH]; intros Hstep k e He; simpl.
  - exact He.
  - destruct (fault (env k)); [exact He|].
    assert (H1 : P (probe state candidate (env k) e)).
    { apply Hstep; [now left|exact He]. }
    destruct (loopEnds state (probe state candidate (env k) e)); [exact H1|].
    apply IH; [|exact H1].
    intros c r e' Hin. apply Hstep. now right.
Qed.

(** What the visits and the two changes of the scan state keep true,
    [reStart] keeps true. *)
Lemma reStart_keeps (P : Engine -> Prop) (w : World) (e : Engine) :
  (forall ips, selectIPs state allIps RegExp = inr ips ->
     forall c r e', In c (randomizeElements w ips) -> P e' ->
                    P (probe state c r e')) ->
  (forall st e', P e' -> P (onStore (dispatchScanState st) e')) ->
  (forall e', P e' -> P (onStore setToIdle e')) ->
  P e -> P (reStart state allIps RegExp w e).
Proof.
  intros Hstep Hst Hidle He. unfold reStart.
  destruct (selectIPs state allIps RegExp) as [x|ips] eqn:Hsel; [exact He|].
  cbv zeta.
  pose proof (testIPs_keeps P (net w) (randomizeElements w ips) (Hstep ips eq_refl)
                0 (onStore (dispatchScanState scanning) e) (Hst scanning e He))
    as Hloop.
  destruct (testIPs state (net w) 0 (randomizeElements w ips)
              (onStore (dispatchScanState scanning) e)); simpl in Hloop.
  - now apply Hidle.
  - exact Hloop.
Qed.

End Invariants.

Section Sequences.

Variable state : Settings.
Variable allIps : list string.
Variable RegExp : string -> option (string -> bool).

(** What the visits, the changes of the scan state and the reset keep
    true, every sequence of operations keeps true. *)
Lemma performAll_keeps (P : Engine -> Prop) :
  (forall c r e, P e -> P (probe state c r e)) ->
  (forall st e, P e -> P (onStore (dispatchScanState st) e)) ->
  (forall e, P e -> P (onStore setToIdle e)) ->
  (forall e, P e -> P (onStore reset e)) ->
  forall ops e, P e -> P (performAll state allIps RegExp ops e).
Proof.
  intros Hstep Hst Hidle Hreset ops.
  induction ops as [|o ops IH]; intros e He; [exact He|].
  unfold performAll in *. simpl. apply IH.
  destruct o as [w|w|]; simpl.
  - rewrite startScan_reset. apply reStart_keeps; auto.
  - apply reStart_keeps; auto.
  - unfold stopScan, onStore.
    destruct (ScanState_eqb (getScanState (store e)) scanning).
    + apply (Hst stopping e He).
    + apply (Hidle e He).
Qed.

End Sequences.

Lemma probe_results (state : Settings) (candidate : string) (r : Run)
    (e : Engine) :
  validIPs (store (probe state candidate r e)) = validIPs (store e)
  \/ (admits state r
      /\ Permutation (validIPs (store (probe state candidate r e)))
           (mkValidIP candidate (finalLatency r) :: validIPs (store e))
      /\ Sorted byLatency (validIPs (store (probe state candidate r e)))).
Proof.
  destruct (probe_validIPs state candidate r e) as [Hyes Hno].
  destruct (admits_dec state r) as [H|H].
  - right. rewrite (Hyes H). split; [exact H|]. split.
    + apply Permutation_trans
        with (validIPs (store e) ++ [mkValidIP candidate (finalLatency r)]).
      * apply sortByLatency_permutation.
      * apply Permutation_sym, Permutation_cons_append.
    + apply sortByLatency_sorted.
  - left. apply (Hno H).
Qed.

(** X1: over any sequence of [startScan], [reStart] and [stopScan], a
    result store that is in ascending order of latency stays so. *)
Theorem results_stay_sorted (state : Settings) (allIps : list string)
    (RegExp : string -> option (string -> bool)) (ops : list Op) (e : Engine) :
  Sorted byLatency (validIPs (store e)) ->
  Sorted byLatency (validIPs (store (performAll state allIps RegExp ops e))).
Proof.
  apply (performAll_keeps state allIps RegExp
           (fun e' => Sorted byLatency (validIPs (store e')))).
  - intros c r e' He'.
    destruct (probe_results state c r e') as [->|[_ [_ Hs]]]; assumption.
  - intros st e' He'. exact He'.
  - intros e' He'. exact He'.
  - intros e' _. constructor.
Qed.

Lemma results_stay_sorted_witness :
  Sorted byLatency
    (validIPs
       (store (performAll (settingsOf 3 1500) (candidates 4) noMatch
                 [OpStartScan (mkWorld (fun l => l)
                                 (fun k => steadyRun (900 - 100 * Z.of_nat k)));
                  OpStopScan;
                  OpReStart (steadyWorld (steadyRun 450))]
                 freshEngine))).
Proof.
  apply (results_stay_sorted (settingsOf 3 1500) (candidates 4) noMatch).
  constructor.
Defined.

(** X2: every result a scan stores has a latency above 50 and at most
    [maxLatency]; over any sequence of operations a store of such
    results stays one. *)
Theorem results_stay_in_window (state : Settings) (allIps : list string)
    (RegExp : string -> option (string -> bool)) (ops : list Op) (e : Engine) :
  Forall (inWindow state) (validIPs (store e)) ->
  Forall (inWindow state)
         (validIPs (store (performAll state allIps RegExp ops e))).
Proof.
  apply (performAll_keeps state allIps RegExp
           (fun e' => Forall (inWindow state) (validIPs (store e')))).
  - intros c r e' He'.
    destruct (probe_results state c r e') as [->|[[_ [Hle Hgt]] [Hp _]]];
      [assumption|].
    apply (Permutation_Forall (Permutation_sym Hp)).
    constructor; [|exact He']. split; assumption.
  - intros st e' He'. exact He'.
  - intros e' He'. exact He'.
  - intros e' _. constructor.
Qed.

Lemma results_stay_in_window_witness :
  Forall (inWindow (settingsOf 3 1500))
    (validIPs
       (store (performAll (settingsOf 3 1500) (candidates 4) noMatch
                 [OpStartScan (mkWorld (fun l => l)
                                 (fun k => steadyRun (4800 - 300 * Z.of_nat k)));
                  OpReStart (steadyWorld (steadyRun 120))]
                 freshEngine))).
Proof.
  apply (results_stay_in_window (settingsOf 3 1500) (candidates 4) noMatch).
  constructor.
Defined.

(** ** Where a scan looks *)

Lemma selectIPs_sound (state : Settings) (allIps : list string)
    (RegExp : string -> option (string -> bool)) (ips : list string) :
  selectIPs state allIps RegExp = inr ips ->
  forall c, In c ips -> In c allIps /\ passesFilter state RegExp c.
Proof.
  unfold selectIPs, passesFilter.
  destruct (ipRegex state =? "")%string eqn:E.
  - apply String.eqb_eq in E. intros H c Hc. injection H as <-. auto.
  - destruct allIps as [|a rest] eqn:Hall.
    + intros H c Hc. injection H as <-. destruct Hc.
    + destruct (RegExp (ipRegex state)) as [test|] eqn:Hre; [|discriminate].
      intros H c Hc.
      assert (Hips : ips = filter test (a :: rest)) by congruence.
      rewrite Hips in Hc.
      apply filter_In in Hc. destruct Hc as [Hin Ht].
      split; [exact Hin|]. right. now exists test.
Qed.

Lemma probe_sent_app (state : Settings) (candidate : string) (r : Run)
    (e : Engine) :
  exists q0 q1 q2,
    sent (probe state candidate r e) = sent e ++ [q0; q1; q2]
    /\ targets state candidate q0 /\ targets state candidate q1
    /\ targets state candidate q2.
Proof.
  rewrite probe_sent, attempts_sent. cbn [onStore sent].
  do 3 eexists. split; [reflexivity|].
  repeat split.
Qed.

(** X3: the results of a [startScan] all come from the candidate list
    and passed the filter pattern, whatever the store held before; the
    shuffle is taken to return only elements of its argument. *)
Theorem results_come_from_candidates (state : Settings) (allIps : list string)
    (RegExp : string -> option (string -> bool)) (w : World) (e : Engine) :
  shuffleWithin w ->
  Forall (fun v => In (ip v) allIps /\ passesFilter state RegExp (ip v))
         (validIPs (store (startScan state allIps RegExp w e))).
Proof.
  intros Hsh. rewrite startScan_reset.
  apply (reStart_keeps state allIps RegExp
           (fun e' => Forall (fun v => In (ip v) allIps
                                       /\ passesFilter state RegExp (ip v))
                             (validIPs (store e')))).
  - intros ips Hsel c r e' Hc He'.
    destruct (probe_results state c r e') as [->|[_ [Hp _]]]; [assumption|].
    apply (Permutation_Forall (Permutation_sym Hp)).
    constructor; [|exact He']. simpl.
    apply (selectIPs_sound state allIps RegExp ips Hsel), Hsh, Hc.
  - intros st e' He'. exact He'.
  - intros e' He'. exact He'.
  - constructor.
Qed.

Lemma results_come_from_candidates_witness :
  Forall (fun v => In (ip v) (candidates 4)
                   /\ passesFilter (settingsOf 3 1500) noMatch (ip v))
    (validIPs
       (store (startScan (settingsOf 3 1500) (candidates 4) noMatch
                 (mkWorld (@rev string) (fun _ => steadyRun 300))
                 (mkEngine (mkStore 9 [mkValidIP "8.8.8.8" 70] "" "" 0 red idle) [])))).
Proof.
  apply (results_come_from_candidates (settingsOf 3 1500) (candidates 4) noMatch
           (mkWorld (@rev string) (fun _ => steadyRun 300))).
  intros l x Hx. apply in_rev. exact Hx.
Defined.

(** X4: every request a [startScan] or [reStart] adds to those already
    sent probes a candidate of the list that passed the filter pattern,
    with the url, path and server name the settings give for it; no
    request already sent is dropped. *)
Theorem requests_target_candidates (state : Settings) (allIps : list string)
    (RegExp : string -> option (string -> bool)) (w : World) (e : Engine) :
  shuffleWithin w ->
  (exists more,
      sent (reStart state allIps RegExp w e) = sent e ++ more
      /\ Forall (fun q => exists c, In c allIps /\ passesFilter state RegExp c
                                    /\ targets state c q) more)
  /\ (exists more,
        sent (startScan state allIps RegExp w e) = sent e ++ more
        /\ Forall (fun q => exists c, In c allIps /\ passesFilter state RegExp c
                                      /\ targets state c q) more).
Proof.
  intros Hsh.
  assert (H : forall e0,
             exists more,
               sent (reStart state allIps RegExp w e0) = sent e0 ++ more
               /\ Forall (fun q => exists c, In c allIps
                                    /\ passesFilter state RegExp c
                                    /\ targets state c q) more).
  { intros e0.
    apply (reStart_keeps state allIps RegExp
             (fun e' => exists more,
                  sent e' = sent e0 ++ more
                  /\ Forall (fun q => exists c, In c allIps
                                       /\ passesFilter state RegExp c
                                       /\ targets state c q) more)).
    - intros ips Hsel c r e' Hc [more [Hs Hall]].
      destruct (probe_sent_app state c r e') as [q0 [q1 [q2 [Hq [H0 [H1 H2]]]]]].
      destruct (selectIPs_sound state allIps RegExp ips Hsel c (Hsh _ _ Hc))
        as [Hin Hpass].
      exists (more ++ [q0; q1; q2]). split.
      + rewrite Hq, Hs, app_assoc. reflexivity.
      + apply Forall_app. split; [exact Hall|].
        repeat constructor; exists c; auto.
    - intros st e' He'. exact He'.
    - intros e' He'. exact He'.
    - exists []. split; [now rewrite app_nil_r|constructor]. }
  split; [apply H|].
  rewrite startScan_reset. apply (H (onStore reset e)).
Qed.

Lemma requests_target_candidates_witness :
  exists more,
    sent (reStart (mkSettings 3 1500 "" "edge.example" 443) (candidates 4) noMatch
            (mkWorld (@rev string) (fun _ => steadyRun 300)) freshEngine)
    = sent freshEngine ++ more
    /\ Forall (fun q => exists c,
                   In c (candidates 4)
                   /\ passesFilter (mkSettings 3 1500 "" "edge.example" 443) noMatch c
                   /\ targets (mkSettings 3 1500 "" "edge.example" 443) c q) more.
Proof.
  apply (requests_target_candidates (mkSettings 3 1500 "" "edge.example" 443)
           (candidates 4) noMatch
           (mkWorld (@rev string) (fun _ => steadyRun 300)) freshEngine).
  intros l x Hx. apply in_rev. exact Hx.
Defined.

Lemma isSSL_iff (state : Settings) :
  isSSL state = true
  <-> sniValue state <> "" /\ In (portValue state) ports_https.
Proof.
  unfold isSSL. rewrite andb_true_iff, negb_true_iff, String.eqb_neq.
  rewrite existsb_exists. split.
  - intros [H [p [Hin Hp]]]. apply Z.eqb_eq in Hp. subst. auto.
  - intros [H Hin]. split; [exact H|].
    exists (portValue state). split; [exact Hin|apply Z.eqb_refl].
Qed.

(** X5: the three requests of a candidate all carry the configured
    server name.  They go over https to the configured port with path
    [/__down] exactly when a server name is set and the port is one of
    the six https ports; otherwise, also when a server name is set, they
    go over plain http with path [/cdn-cgi/trace], to the configured port
    or to port 80 if that is lower. *)
Theorem protocol_selection (state : Settings) (candidate : string) (r : Run)
    (e : Engine) :
  Forall
    (fun q =>
       sni q = sniValue state
       /\ ((sniValue state <> "" /\ In (portValue state) ports_https
            /\ url q = ("https://" ++ candidate ++ ":"
                        ++ numText (portValue state))%string
            /\ path q = "/__down")
           \/ ((sniValue state = "" \/ ~ In (portValue state) ports_https)
               /\ url q = ("http://" ++ candidate ++ ":"
                           ++ numText (Z.max 80 (portValue state)))%string
               /\ path q = "/cdn-cgi/trace")))
    (skipn (List.length (sent e)) (sent (probe state candidate r e))).
Proof.
  destruct (probe_sent_app state candidate r e)
    as [q0 [q1 [q2 [Hq [H0 [H1 H2]]]]]].
  rewrite Hq, skipn_app, Nat.sub_diag, skipn_all, app_nil_l. cbn [skipn].
  assert (H : forall q, targets state candidate q ->
     sni q = sniValue state
     /\ ((sniValue state <> "" /\ In (portValue state) ports_https
          /\ url q = ("https://" ++ candidate ++ ":"
                      ++ numText (portValue state))%string
          /\ path q = "/__down")
         \/ ((sniValue state = "" \/ ~ In (portValue state) ports_https)
             /\ url q = ("http://" ++ candidate ++ ":"
                         ++ numText (Z.max 80 (portValue state)))%string
             /\ path q = "/cdn-cgi/trace"))).
  { intros q [Hu [Hp Hs]]. split; [exact Hs|].
    rewrite Hu, Hp. unfold probeUrl, probePath.
    destruct (isSSL state) eqn:E.
    - left. apply isSSL_iff in E. destruct E as [E1 E2]. auto.
    - right. split.
      + apply not_true_iff_false in E. rewrite isSSL_iff in E.
        destruct (String.eqb_spec (sniValue state) ""); [now left|].
        right. intros Hin. apply E. auto.
      + split; [|reflexivity].
        destruct (portValue state <? 80) eqn:Hlt.
        * apply Z.ltb_lt in Hlt. rewrite Z.max_l by lia. reflexivity.
        * apply Z.ltb_ge in Hlt. rewrite Z.max_r by lia. reflexivity. }
  constructor; [apply H, H0|].
  constructor; [apply H, H1|].
  constructor; [apply H, H2|constructor].
Qed.

(** X6: [reStart] never drops anything: every result stored before it
    is still stored after it, the attempt counter does not go down, and
    the results are the old ones and nothing else when no candidate was
    visited. *)
Theorem reStart_never_drops (state : Settings) (allIps : list string)
    (RegExp : string -> option (string -> bool)) (w : World) (e : Engine) :
  incl (validIPs (store e)) (validIPs (store (reStart state allIps RegExp w e)))
  /\ testNo (store e) <= testNo (store (reStart state allIps RegExp w e))
  /\ (testNo (store (reStart state allIps RegExp w e)) = testNo (store e) ->
      validIPs (store (reStart state allIps RegExp w e)) = validIPs (store e)).
Proof.
  apply (reStart_keeps state allIps RegExp
           (fun e' => incl (validIPs (store e)) (validIPs (store e'))
                      /\ testNo (store e) <= testNo (store e')
                      /\ (testNo (store e') = testNo (store e) ->
                          validIPs (store e') = validIPs (store e)))).
  - intros ips _ c r e' _ [Hincl [Hle _]].
    rewrite probe_testNo. split; [|split; [lia|intros; lia]].
    destruct (probe_results state c r e') as [->|[_ [Hp _]]]; [exact Hincl|].
    intros v Hv. apply (Permutation_in _ (Permutation_sym Hp)).
    right. apply Hincl, Hv.
  - intros st e' He'. exact He'.
  - intros e' He'. exact He'.
  - split; [apply incl_refl|]. split; [lia|reflexivity].
Qed.


(** ** How a scan ends *)

(** X8: a filter pattern that does not compile, with a candidate list
    that is not empty, ends [startScan] right after its reset: state
    [idle], no result, the attempt counter at zero, [scanning] never
    entered and no request sent; [reStart] then changes nothing at
    all. *)
Theorem invalid_pattern_aborts (state : Settings) (allIps : list string)
    (RegExp : string -> option (string -> bool)) (w : World) (e : Engine) :
  ipRegex state <> "" ->
  allIps <> [] ->
  RegExp (ipRegex state) = None ->
  startScan state allIps RegExp w e = mkEngine initialState (sent e)
  /\ startScanEntry state allIps RegExp e = None
  /\ reStart state allIps RegExp w e = e.
Proof.
  intros Hne Hips Hre.
  assert (Hsel : selectIPs state allIps RegExp = inl SyntaxError).
  { unfold selectIPs. apply String.eqb_neq in Hne. rewrite Hne, Hre.
    destruct allIps; [now elim Hips|reflexivity]. }
  unfold startScan, startScanEntry, scanEntry, reStart. rewrite Hsel.
  repeat split.
Qed.

Lemma invalid_pattern_aborts_witness :
  startScan (mkSettings 5 1500 "(" "" 80) (candidates 3) noMatch
            (steadyWorld (steadyRun 300))
            (mkEngine (mkStore 7 [mkValidIP "8.8.8.8" 70] "8.8.8.8" "/" 70 green scanning) [])
  = mkEngine initialState []
  /\ reStart (mkSettings 5 1500 "(" "" 80) (candidates 3) noMatch
             (steadyWorld (steadyRun 300))
             (mkEngine (mkStore 7 [mkValidIP "8.8.8.8" 70] "8.8.8.8" "/" 70 green scanning) [])
     = mkEngine (mkStore 7 [mkValidIP "8.8.8.8" 70] "8.8.8.8" "/" 70 green scanning) [].
Proof.
  split;
    apply (invalid_pattern_aborts (mkSettings 5 1500 "(" "" 80) (candidates 3)
             noMatch (steadyWorld (steadyRun 300))
             (mkEngine (mkStore 7 [mkValidIP "8.8.8.8" 70] "8.8.8.8" "/" 70
                                green scanning) []));
    (discriminate || reflexivity).
Defined.

Lemma testIPs_returns (state : Settings) (env : nat -> Run)
    (ipList : list string) :
  faultFree env ->
  forall k e, threw (testIPs state env k ipList e) = false.
Proof.
  intros Hf. induction ipList as [|c rest IH]; intros k e; simpl.
  - reflexivity.
  - rewrite (Hf k).
    destruct (loopEnds state (probe state c (env k) e)); [reflexivity|apply IH].
Qed.

(** X9: when the loop body never throws, [startScan] always ends in
    state [idle] with the attempt indicator cleared, whatever the
    candidates, the pattern, the answers and the presses on stop; and
    [reStart] ends the same way unless the pattern failed to compile, in
    which case it left everything as it was. *)
Theorem scan_ends_idle (state : Settings) (allIps : list string)
    (RegExp : string -> option (string -> bool)) (w : World) (e : Engine) :
  faultFree (net w) ->
  (scanState (store (startScan state allIps RegExp w e)) = idle
   /\ tryChar (store (startScan state allIps RegExp w e)) = "")
  /\ ((scanState (store (reStart state allIps RegExp w e)) = idle
       /\ tryChar (store (reStart state allIps RegExp w e)) = "")
      \/ (selectIPs state allIps RegExp = inl SyntaxError
          /\ reStart state allIps RegExp w e = e)).
Proof.
  intros Hf. unfold startScan, reStart.
  destruct (selectIPs state allIps RegExp) as [[|]|ips] eqn:Hsel.
  - split; [split; reflexivity|right; split; reflexivity].
  - exfalso. unfold selectIPs in Hsel.
    destruct (ipRegex state =? "")%string; [discriminate|].
    destruct allIps; [discriminate|].
    destruct (RegExp (ipRegex state)); discriminate.
  - cbv zeta.
    pose proof (testIPs_returns state (net w) (randomizeElements w ips) Hf 0
                  (onStore (dispatchScanState scanning) (onStore reset e))) as H1.
    pose proof (testIPs_returns state (net w) (randomizeElements w ips) Hf 0
                  (onStore (dispatchScanState scanning) e)) as H2.
    destruct (testIPs state (net w) 0 (randomizeElements w ips)
                (onStore (dispatchScanState scanning) (onStore reset e)));
      [|discriminate].
    destruct (testIPs state (net w) 0 (randomizeElements w ips)
                (onStore (dispatchScanState scanning) e));
      [|discriminate].
    split; [split; reflexivity|left; split; reflexivity].
Qed.

Lemma scan_ends_idle_witness :
  scanState
    (store (startScan (settingsOf 2 1500) (candidates 5) noMatch
              (mkWorld (@rev string)
                 (fun k => if (k =? 1)%nat then stoppedRun 300 else deadRun 4500))
              freshEngine)) = idle
  /\ tryChar
       (store (startScan (settingsOf 2 1500) (candidates 5) noMatch
                 (mkWorld (@rev string)
                    (fun k => if (k =? 1)%nat then stoppedRun 300 else deadRun 4500))
                 freshEngine)) = "".
Proof.
  apply (scan_ends_idle (settingsOf 2 1500) (candidates 5) noMatch
           (mkWorld (@rev string)
              (fun k => if (k =? 1)%nat then stoppedRun 300 else deadRun 4500))
           freshEngine).
  intros k. simpl. destruct (k =? 1)%nat; reflexivity.
Defined.

Lemma probe_keeps_scanning (state : Settings) (candidate : string) (r : Run)
    (e : Engine) :
  scanState (store e) = scanning ->
  presses r = 0%nat ->
  scanState (store (probe state candidate r e)) = scanning.
Proof.
  intros Hs Hp.
  rewrite probe_scanState, attempts_scanState by exact Hs.
  rewrite Hp. reflexivity.
Qed.

Lemma testIPs_runs_to_cap (state : Settings) (env : nat -> Run)
    (ipList : list string) :
  faultFree env -> neverStopped env ->
  forall k e,
    scanState (store e) = scanning ->
    testNo (store (engineOf (testIPs state env k ipList e)))
    = testNo (store e) + Z.of_nat (List.length ipList)
    \/ maxIPCount state
       <= getValidIPCount (store (engineOf (testIPs state env k ipList e))).
Proof.
  intros Hf Hn. induction ipList as [|c rest IH]; intros k e Hs.
  - left. simpl. lia.
  - simpl testIPs. rewrite (Hf k).
    pose proof (probe_keeps_scanning state c (env k) e Hs (Hn k)) as Hs1.
    destruct (loopEnds state (probe state c (env k) e)) eqn:E.
    + right. cbn [engineOf]. unfold loopEnds, getScanState in E.
      rewrite Hs1 in E. simpl in E. apply Z.leb_le in E. exact E.
    + destruct (IH (S k) _ Hs1) as [H|H]; [left|right; exact H].
      rewrite H, probe_testNo. cbn [List.length]. lia.
Qed.

(** X10: with [maxIPCount] at least 1, no press on stop and no
    exception, a [startScan] ends either with exactly [maxIPCount]
    results or having visited every candidate the filter let through;
    the shuffle is taken to keep the length of the list. *)
Theorem scan_stops_at_cap (state : Settings) (allIps : list string)
    (RegExp : string -> option (string -> bool)) (w : World) (e : Engine)
    (ips : list string) :
  1 <= maxIPCount state ->
  (forall l, List.length (randomizeElements w l) = List.length l) ->
  faultFree (net w) -> neverStopped (net w) ->
  selectIPs state allIps RegExp = inr ips ->
  getValidIPCount (store (startScan state allIps RegExp w e)) = maxIPCount state
  \/ testNo (store (startScan state allIps RegExp w e))
     = Z.of_nat (List.length ips).
Proof.
  intros Hmax Hlen Hf Hn Hsel.
  assert (Hle : getValidIPCount (store (startScan state allIps RegExp w e))
                <= maxIPCount state).
  { pose proof (reStart_within state allIps RegExp w (maxIPCount state)
                  (onStore reset e) (Z.le_refl _) Hmax) as Hall.
    rewrite Forall_forall in Hall. apply Hall.
    unfold scanMoments. right. apply in_or_app. right. now left. }
  revert Hle. unfold startScan. rewrite Hsel. cbv zeta.
  pose proof (testIPs_runs_to_cap state (net w) (randomizeElements w ips) Hf Hn 0
                (onStore (dispatchScanState scanning) (onStore reset e))
                eq_refl) as Hrun.
  pose proof (testIPs_returns state (net w) (randomizeElements w ips) Hf 0
                (onStore (dispatchScanState scanning) (onStore reset e))) as Hret.
  destruct (testIPs state (net w) 0 (randomizeElements w ips)
              (onStore (dispatchScanState scanning) (onStore reset e)))
    as [e2|x e2]; [|discriminate].
  cbn [engineOf] in Hrun. intros Hle.
  destruct Hrun as [H|H].
  - right. cbn [onStore store setToIdle testNo]. rewrite H, Hlen. simpl. lia.
  - left. unfold getValidIPCount in *. cbn [onStore store setToIdle validIPs] in *.
    lia.
Qed.

Lemma scan_stops_at_cap_witness :
  getValidIPCount
    (store (startScan (settingsOf 2 1500) (candidates 5) noMatch
              (mkWorld (@rev string) (fun k => steadyRun (300 + 30 * Z.of_nat k)))
              freshEngine)) = 2
  \/ testNo
       (store (startScan (settingsOf 2 1500) (candidates 5) noMatch
                 (mkWorld (@rev string) (fun k => steadyRun (300 + 30 * Z.of_nat k)))
                 freshEngine)) = 5.
Proof.
  apply (scan_stops_at_cap (settingsOf 2 1500) (candidates 5) noMatch
           (mkWorld (@rev string) (fun k => steadyRun (300 + 30 * Z.of_nat k)))
           freshEngine (candidates 5)).
  - vm_compute. discriminate.
  - intros l. apply length_rev.
  - intros k. reflexivity.
  - intros k. reflexivity.
  - reflexivity.
Defined.

(** ** Where a new result goes *)

Lemma place_first (v : ValidIP) (l : list ValidIP) :
  (forall y, In y l -> latency v <= latency y) -> place v l = v :: l.
Proof.
  destruct l as [|w rest]; intros H; simpl; [reflexivity|].
  assert (Hw : (latency v <=? latency w) = true).
  { apply Z.leb_le, H. now left. }
  rewrite Hw. reflexivity.
Qed.

Lemma filter_all (f : ValidIP -> bool) (l : list ValidIP) :
  (forall y, In y l -> f y = true) -> filter f l = l.
Proof.
  induction l as [|x l IH]; intros H; simpl; [reflexivity|].
  rewrite (H x (or_introl eq_refl)). f_equal. apply IH.
  intros y Hy. apply H. now right.
Qed.

Lemma filter_none (f : ValidIP -> bool) (l : list ValidIP) :
  (forall y, In y l -> f y = false) -> filter f l = [].
Proof.
  induction l as [|x l IH]; intros H; simpl; [reflexivity|].
  rewrite (H x (or_introl eq_refl)). apply IH.
  intros y Hy. apply H. now right.
Qed.

Lemma byLatency_trans : Relations_1.Transitive byLatency.
Proof. intros a b c. unfold byLatency. lia. Qed.

Lemma sort_after_append (v : ValidIP) (l : list ValidIP) :
  StronglySorted byLatency l ->
  sortByLatency (l ++ [v])
  = filter (fun x => latency x <=? latency v) l
    ++ v :: filter (fun x => latency v <? latency x) l.
Proof.
  induction 1 as [|x l Hs IH Hx]; [reflexivity|].
  rewrite Forall_forall in Hx. unfold byLatency in Hx.
  simpl app. simpl sortByLatency. rewrite IH. simpl filter.
  destruct (latency x <=? latency v) eqn:E.
  - apply Z.leb_le in E.
    assert (Hlt : (latency v <? latency x) = false) by (apply Z.ltb_ge; exact E).
    rewrite Hlt. simpl app. apply place_first.
    intros y Hy. apply in_app_or in Hy. destruct Hy as [Hy|[<-|Hy]].
    + apply filter_In in Hy. apply Hx, Hy.
    + exact E.
    + apply filter_In in Hy. apply Hx, Hy.
  - apply Z.leb_gt in E.
    assert (Hlt : (latency v <? latency x) = true) by (apply Z.ltb_lt; exact E).
    rewrite Hlt.
    rewrite filter_none, filter_all.
    + simpl. apply Z.lt_nge, Z.leb_nle in E. rewrite E. f_equal.
      apply place_first. exact Hx.
    + intros y Hy. apply Z.ltb_lt. specialize (Hx y Hy). lia.
    + intros y Hy. apply Z.leb_gt. specialize (Hx y Hy). lia.
Qed.

(** X11: in a store that is in ascending order, [addValidIP] puts the
    new result behind every stored result that is as fast or faster, so
    a tie keeps the earlier result first, and in front of every slower
    one; the stored results keep their order. *)
Theorem addValidIP_position (v : ValidIP) (s : ScannerStore) :
  Sorted byLatency (validIPs s) ->
  validIPs (addValidIP v s)
  = filter (fun x => latency x <=? latency v) (validIPs s)
    ++ v :: filter (fun x => latency v <? latency x) (validIPs s).
Proof.
  intros Hs. simpl. apply sort_after_append.
  apply Sorted_StronglySorted; [exact byLatency_trans|exact Hs].
Qed.

Lemma addValidIP_position_witness :
  validIPs
    (addValidIP (mkValidIP "10.0.0.9" 120)
       (mkStore 3 [mkValidIP "10.0.0.1" 80; mkValidIP "10.0.0.2" 120;
                   mkValidIP "10.0.0.3" 200] "" "" 0 red scanning))
  = [mkValidIP "10.0.0.1" 80; mkValidIP "10.0.0.2" 120;
     mkValidIP "10.0.0.9" 120; mkValidIP "10.0.0.3" 200].
Proof.
  apply (addValidIP_position (mkValidIP "10.0.0.9" 120)
           (mkStore 3 [mkValidIP "10.0.0.1" 80; mkValidIP "10.0.0.2" 120;
                       mkValidIP "10.0.0.3" 200] "" "" 0 red scanning)).
  repeat constructor; unfold byLatency; simpl; lia.
Defined.

(** ** The two deadlines of an attempt *)

Lemma multiply_cases (state : Settings) :
  multiply state = 3 # 2 \/ multiply state = 6 # 5 \/ multiply state = 1 # 1.
Proof.
  unfold multiply.
  destruct (Qle_bool (maxLatency state) (500 # 1)); [now left|].
  destruct (Qle_bool (maxLatency state) (1000 # 1)); auto.
Qed.

Lemma trunc_nonneg (q : Q) :
  (0 <= q)%Q ->
  (inject_Z (trunc q) <= q)%Q /\ (q < inject_Z (trunc q) + 1)%Q.
Proof.
  intros H. unfold trunc.
  apply Qle_bool_iff in H. rewrite H. split.
  - apply Qfloor_le.
  - pose proof (Qlt_floor q) as Hlt.
    rewrite inject_Z_plus in Hlt. exact Hlt.
Qed.

(** X12: with [maxLatency] at least 2, the time-out handed to the probe
    client in attempt 0 ends before the abort timer of that attempt; the
    abort timer of attempt 1 ends no later than the time-out of attempt
    0, so before the longer time-out attempt 1 hands to the client; the
    abort timer of attempt 2 is the integer part of that attempt's
    time-out. *)
Theorem deadline_order (state : Settings) (candidate : string) (r : Run)
    (e : Engine) :
  (2 <= maxLatency state)%Q ->
  exists q0 q1 q2,
    sent (probe state candidate r e) = sent e ++ [q0; q1; q2]
    /\ (timeout q0 < inject_Z (abortAfter q0))%Q
    /\ (inject_Z (abortAfter q1) <= timeout q0)%Q
    /\ (timeout q0 < timeout q1)%Q
    /\ (inject_Z (abortAfter q2) <= timeout q2)%Q
    /\ (timeout q2 < inject_Z (abortAfter q2) + 1)%Q.
Proof.
  intros HL.
  rewrite probe_sent, attempts_sent. cbn [onStore sent].
  do 3 eexists. split; [reflexivity|].
  unfold requestOf, timeoutOf. cbn [timeout abortAfter Nat.eqb].
  set (L := maxLatency state) in *.
  assert (H0 : (0 <= (3 # 2) * multiply state * L)%Q
               /\ (0 <= multiply state * L)%Q
               /\ (0 <= (6 # 5) * multiply state * L)%Q
               /\ (multiply state * L + 1 <= (3 # 2) * multiply state * L)%Q
               /\ (multiply state * L < (6 # 5) * multiply state * L)%Q).
  { destruct (multiply_cases state) as [-> | [-> | ->]]; repeat split; lra. }
  destruct H0 as [Ha [Hb [Hc [Hd He]]]].
  destruct (trunc_nonneg _ Ha) as [_ Ha2].
  destruct (trunc_nonneg _ Hb) as [Hb1 _].
  destruct (trunc_nonneg _ Hc) as [Hc1 Hc2].
  repeat split; try assumption; lra.
Qed.

Lemma deadline_order_witness :
  exists q0 q1 q2,
    sent (probe (settingsOf 5 1500) "1.1.1.1" (steadyRun 300) freshEngine)
    = sent freshEngine ++ [q0; q1; q2]
    /\ (timeout q0 < inject_Z (abortAfter q0))%Q
    /\ (inject_Z (abortAfter q1) <= timeout q0)%Q
    /\ (timeout q0 < timeout q1)%Q
    /\ (inject_Z (abortAfter q2) <= timeout q2)%Q
    /\ (timeout q2 < inject_Z (abortAfter q2) + 1)%Q.
Proof.
  apply (deadline_order (settingsOf 5 1500) "1.1.1.1" (steadyRun 300) freshEngine).
  vm_compute. discriminate.
Defined.



(** ** What is persisted: [pick], [partialize] and the store actions *)

Lemma getProp_defineProperty (key : string) (v : JSValue) (o : JSObject)
    (k : string) :
  getProp (defineProperty key v o) k
  = if (key =? k)%string then v else getProp o k.
Proof.
  induction o as [|[a b] rest IH]; simpl.
  - reflexivity.
  - destruct (String.eqb_spec a key) as [->|Hne]; simpl.
    + destruct (key =? k)%string; reflexivity.
    + rewrite IH.
      destruct (String.eqb_spec a k) as [->|Hak]; [|reflexivity].
      apply String.eqb_neq in Hne. rewrite String.eqb_sym in Hne.
      rewrite Hne. reflexivity.
Qed.

Lemma keysOf_defineProperty (key : string) (v : JSValue) (o : JSObject) :
  (forall k, In k (keysOf (defineProperty key v o)) <-> k = key \/ In k (keysOf o))
  /\ (NoDup (keysOf o) -> NoDup (keysOf (defineProperty key v o))).
Proof.
  induction o as [|[a b] rest [IH1 IH2]]; simpl.
  - split; [intros k; intuition auto|].
    intros _. constructor; [intros []|constructor].
  - destruct (String.eqb_spec a key) as [->|Hne]; simpl.
    + split; [intros k; intuition auto|auto].
    + split.
      * intros k. rewrite IH1. intuition auto.
      * intros Hnd. inversion Hnd as [|x l Hnin Hnd']; subst.
        constructor; [|apply IH2, Hnd'].
        rewrite IH1. intros [->|Hin]; [now elim Hne|now elim Hnin].
Qed.

Lemma getProp_assign_keyed (g : string -> JSValue) (keys : list string) :
  forall o k,
    getProp (assign o (map (fun key => (key, g key)) keys)) k
    = if in_dec string_dec k keys then g k else getProp o k.
Proof.
  unfold assign.
  induction keys as [|key rest IH]; intros o k; simpl fold_left.
  - reflexivity.
  - rewrite IH, getProp_defineProperty. cbn [fst snd].
    destruct (in_dec string_dec k rest) as [Hin|Hnin];
      destruct (in_dec string_dec k (key :: rest)) as [Hin'|Hnin'];
      try reflexivity.
    + elim Hnin'. now right.
    + destruct (String.eqb_spec key k) as [->|Hne]; [reflexivity|].
      destruct Hin' as [->|Hin']; [now elim Hne|now elim Hnin].
    + destruct (String.eqb_spec key k) as [->|Hne]; [|reflexivity].
      elim Hnin'. now left.
Qed.

Lemma keysOf_assign (entries : list (string * JSValue)) :
  forall o,
    (forall k, In k (keysOf (assign o entries))
               <-> In k (keysOf o) \/ In k (map fst entries))
    /\ (NoDup (keysOf o) -> NoDup (keysOf (assign o entries))).
Proof.
  unfold assign.
  induction entries as [|[key v] rest IH]; intros o; simpl fold_left.
  - split; [intros k; simpl; intuition auto|auto].
  - destruct (IH (defineProperty key v o)) as [IH1 IH2].
    destruct (keysOf_defineProperty key v o) as [D1 D2].
    split.
    + intros k. rewrite IH1, D1. simpl. intuition auto.
    + intros Hnd. apply IH2, D2, Hnd.
Qed.

Lemma getProp_assign_other (entries : list (string * JSValue)) :
  forall o k,
    ~ In k (map fst entries) ->
    getProp (assign o entries) k = getProp o k.
Proof.
  unfold assign.
  induction entries as [|[key v] rest IH]; intros o k Hk; simpl fold_left.
  - reflexivity.
  - rewrite IH, getProp_defineProperty.
    + cbn [fst snd]. destruct (String.eqb_spec key k) as [->|Hne]; [|reflexivity].
      elim Hk. now left.
    + intros Hin. apply Hk. now right.
Qed.

(** X14: [pick], called with keys of the base object, returns an object
    whose keys are exactly the keys asked for, each once, and whose value
    at each of them is the base object's. *)
Theorem pick_lookup (base : JSObject) (keys : list string) :
  incl keys (keysOf base) ->
  (forall k, In k keys -> getProp (pick base keys) k = getProp base k)
  /\ (forall k, In k (keysOf (pick base keys)) <-> In k keys)
  /\ NoDup (keysOf (pick base keys)).
Proof.
  intros _. unfold pick, fromEntries. split; [|split].
  - intros k Hk. rewrite getProp_assign_keyed.
    destruct (in_dec string_dec k keys); [reflexivity|contradiction].
  - intros k.
    destruct (keysOf_assign (map (fun key => (key, getProp base key)) keys) [])
      as [H _].
    rewrite H, map_map. simpl. rewrite map_id. intuition auto.
  - apply keysOf_assign. constructor.
Qed.

Lemma pick_lookup_witness :
  (forall k, In k ["b"; "a"; "b"] ->
             getProp (pick [("a", JNumber 1); ("b", JString "x"); ("c", JUndefined)]
                           ["b"; "a"; "b"]) k
             = getProp [("a", JNumber 1); ("b", JString "x"); ("c", JUndefined)] k)
  /\ (forall k, In k (keysOf (pick [("a", JNumber 1); ("b", JString "x");
                                    ("c", JUndefined)] ["b"; "a"; "b"]))
                <-> In k ["b"; "a"; "b"])
  /\ NoDup (keysOf (pick [("a", JNumber 1); ("b", JString "x"); ("c", JUndefined)]
                         ["b"; "a"; "b"])).
Proof.
  apply (pick_lookup [("a", JNumber 1); ("b", JString "x"); ("c", JUndefined)]
           ["b"; "a"; "b"]).
  intros k Hk. simpl in *. intuition auto.
Defined.

(** The snapshot depends on the object only through its settings. *)
Lemma pick_ext (b1 b2 : JSObject) (keys : list string) :
  (forall k, In k keys -> getProp b1 k = getProp b2 k) ->
  pick b1 keys = pick b2 keys.
Proof.
  intros H. unfold pick. f_equal.
  apply map_ext_in. intros k Hk. now rewrite (H k Hk).
Qed.

(** X15: what [partialize] hands to the persistence layer is the five
    settings with their current values, in the order of
    [settingsInitialValues], and nothing else: no result, no progress
    field, no scan state and no action of the store is persisted. *)
Theorem partialize_settings_only (cfg : Settings) (s : ScannerStore) :
  partialize (storeObject cfg s) = settingsObject cfg
  /\ (forall k, In k (keysOf (transientObject s) ++ keysOf actionsObject) ->
                getProp (partialize (storeObject cfg s)) k = JUndefined
                /\ ~ In k (keysOf (partialize (storeObject cfg s)))).
Proof.
  split; [reflexivity|].
  intros k Hk. change (partialize (storeObject cfg s)) with (settingsObject cfg).
  simpl in Hk.
  repeat (destruct Hk as [<-|Hk];
          [split; [reflexivity|simpl; intuition discriminate]|]).
  destruct Hk.
Qed.

(** X16: a [set] that touches only transient fields never changes what
    is persisted: for any state object, the snapshot [partialize] takes
    after the update is the one it took before.  The objects [reset],
    [increaseTestNo], [addValidIP], [setToIdle] and the progress
    dispatches pass to [set] are all of that kind. *)
Theorem transient_updates_keep_snapshot (patch : JSObject) (o : JSObject) :
  incl (keysOf patch) (keysOf (transientObject initialState)) ->
  partialize (setState patch o) = partialize o.
Proof.
  intros Hincl. unfold partialize. apply pick_ext.
  intros k Hk. unfold setState. apply getProp_assign_other.
  intros Hin. apply Hincl in Hin. simpl in Hk, Hin.
  repeat (destruct Hk as [<-|Hk];
          [repeat (destruct Hin as [Hin|Hin]; [discriminate Hin|]);
           destruct Hin|]).
  destruct Hk.
Qed.

Lemma transient_updates_keep_snapshot_witness :
  partialize
    (setState resetPatch
       (storeObject (mkSettings 3 900 "^10" "edge.example" 8443)
          (mkStore 7 [mkValidIP "8.8.8.8" 70] "8.8.8.8" "/" 70 green scanning)))
  = partialize
      (storeObject (mkSettings 3 900 "^10" "edge.example" 8443)
         (mkStore 7 [mkValidIP "8.8.8.8" 70] "8.8.8.8" "/" 70 green scanning)).
Proof.
  apply (transient_updates_keep_snapshot resetPatch).
  intros k Hk. exact Hk.
Defined.


Lemma getProp_assign_in (entries : list (string * JSValue)) :
  NoDup (map fst entries) ->
  forall o k v, In (k, v) entries -> getProp (assign o entries) k = v.
Proof.
  induction entries as [|[key v0] rest IH]; intros Hnd o k v Hin.
  - destruct Hin.
  - inversion Hnd as [|x l Hnin Hnd']; subst.
    destruct Hin as [Heq|Hin].
    + injection Heq as -> ->.
      change (assign o ((k, v) :: rest))
        with (assign (defineProperty k v o) rest).
      rewrite getProp_assign_other by exact Hnin.
      rewrite getProp_defineProperty, String.eqb_refl. reflexivity.
    + change (assign o ((key, v0) :: rest))
        with (assign (defineProperty key v0 o) rest).
      apply (IH Hnd' _ _ _ Hin).
Qed.

(** X18: after [setSettings], the snapshot [partialize] takes holds, for
    each setting the update names, the new value, and for each setting
    it does not name, the value it had. *)
Theorem setSettings_persisted (newSettings : JSObject) (o : JSObject) :
  NoDup (keysOf newSettings) ->
  forall k,
    In k (keysOf (settingsObject settingsInitialValues)) ->
    (forall v, In (k, v) newSettings ->
               getProp (partialize (setSettings newSettings o)) k = v)
    /\ (~ In k (keysOf newSettings) ->
        getProp (partialize (setSettings newSettings o)) k
        = getProp (partialize o) k).
Proof.
  intros Hnd k Hk. unfold partialize, pick, fromEntries, setSettings, setState.
  rewrite !getProp_assign_keyed.
  destruct (in_dec string_dec k (keysOf (settingsObject settingsInitialValues)));
    [|contradiction].
  split.
  - intros v Hin. apply getProp_assign_in; assumption.
  - intros Hnin. apply getProp_assign_other. exact Hnin.
Qed.

Lemma setSettings_persisted_witness :
  getProp
    (partialize
       (setSettings [("maxLatency", JNumber 400); ("portValue", JNumber 443)]
          (storeObject settingsInitialValues initialState)))
    "maxLatency" = JNumber 400
  /\ getProp
       (partialize
          (setSettings [("maxLatency", JNumber 400); ("portValue", JNumber 443)]
             (storeObject settingsInitialValues initialState)))
       "maxIPCount"
     = getProp (partialize (storeObject settingsInitialValues initialState))
               "maxIPCount".
Proof.
  split.
  - apply (setSettings_persisted
             [("maxLatency", JNumber 400); ("portValue", JNumber 443)]
             (storeObject settingsInitialValues initialState)).
    + repeat constructor; simpl; intuition discriminate.
    + simpl. auto.
    + simpl. auto.
  - apply (setSettings_persisted
             [("maxLatency", JNumber 400); ("portValue", JNumber 443)]
             (storeObject settingsInitialValues initialState)).
    + repeat constructor; simpl; intuition discriminate.
    + simpl. auto.
    + simpl. intuition discriminate.
Defined.

(** ** A deeper search on a full store *)

(** X19: the loop tests the result cap only after a candidate: a
    [reStart] entered with [maxIPCount] results or more, and with a
    candidate to visit, probes exactly one candidate, three requests,
    and then ends in state [idle]; the store can grow by that one
    result. *)
Theorem reStart_on_full_store (state : Settings) (allIps : list string)
    (RegExp : string -> option (string -> bool)) (w : World) (e : Engine)
    (ips : list string) (c : string) (rest : list string) :
  selectIPs state allIps RegExp = inr ips ->
  randomizeElements w ips = c :: rest ->
  fault (net w 0%nat) = false ->
  maxIPCount state <= getValidIPCount (store e) ->
  reStart state allIps RegExp w e
  = onStore setToIdle
      (probe state c (net w 0%nat) (onStore (dispatchScanState scanning) e))
  /\ testNo (store (reStart state allIps RegExp w e)) = testNo (store e) + 1
  /\ List.length (sent (reStart state allIps RegExp w e))
     = (List.length (sent e) + 3)%nat
  /\ getValidIPCount (store (reStart state allIps RegExp w e))
     <= getValidIPCount (store e) + 1.
Proof.
  intros Hsel Hsh Hf Hfull.
  pose proof (probe_count state c (net w 0%nat)
                (onStore (dispatchScanState scanning) e)) as Hc.
  change (getValidIPCount (store (onStore (dispatchScanState scanning) e)))
    with (getValidIPCount (store e)) in Hc.
  assert (Hrun : reStart state allIps RegExp w e
                 = onStore setToIdle
                     (probe state c (net w 0%nat)
                        (onStore (dispatchScanState scanning) e))).
  { unfold reStart. rewrite Hsel. cbv zeta. rewrite Hsh. simpl testIPs.
    rewrite Hf.
    assert (Hend : loopEnds state
                     (probe state c (net w 0%nat)
                        (onStore (dispatchScanState scanning) e)) = true).
    { unfold loopEnds. apply orb_true_iff. right. apply Z.leb_le. lia. }
    rewrite Hend. reflexivity. }
  split; [exact Hrun|]. rewrite Hrun.
  cbn [onStore store sent setToIdle testNo].
  rewrite probe_testNo, probe_sent_length. repeat split.
  change (getValidIPCount
            (store (probe state c (net w 0%nat)
                      (onStore (dispatchScanState scanning) e)))
          <= getValidIPCount (store e) + 1).
  lia.
Qed.

Lemma reStart_on_full_store_witness :
  testNo
    (store (reStart (settingsOf 1 1500) (candidates 4) noMatch
              (steadyWorld (steadyRun 300))
              (startScan (settingsOf 1 1500) (candidates 4) noMatch
                 (steadyWorld (steadyRun 300)) freshEngine)))
  = testNo
      (store (startScan (settingsOf 1 1500) (candidates 4) noMatch
                (steadyWorld (steadyRun 300)) freshEngine)) + 1.
Proof.
  apply (reStart_on_full_store (settingsOf 1 1500) (candidates 4) noMatch
           (steadyWorld (steadyRun 300))
           (startScan (settingsOf 1 1500) (candidates 4) noMatch
              (steadyWorld (steadyRun 300)) freshEngine)
           (candidates 4) "10.0.0.1" (tl (candidates 4))).
  - reflexivity.
  - reflexivity.
  - reflexivity.
  - vm_compute. discriminate.
Defined.
